(** * AIConfig converters: frontmatter-driven markdown dialect conversion

    Shallow embedding of the three converter scripts
    [tools/agents2rules.py], [tools/instructions2rules.py] and
    [tools/prompts2commands.py], and the properties of their frontmatter
    parser, product-name normalizer, document emitters and batch drivers.

    A Python [str] is a sequence of Unicode code points; it is modelled as a
    list of code points ([N]).  The Python runtime routines the scripts call
    ([str.strip], [str.splitlines], [str.replace], ...) are defined here the
    way CPython documents them.  Three runtime routines cannot be written
    down completely ([ast.literal_eval], [repr] of a string and
    [str.title], the last two depending on the Unicode database): the
    development is parametric in them, and a small executable fragment is
    supplied to run examples. *)

From Stdlib Require Import NArith ZArith List Bool Lia Ascii String DecimalString.
From stdpp Require Import base option list countable gmap.

Set Default Proof Using "Type".
Set Warnings "-register-all".
Local Open Scope N_scope.
Local Open Scope list_scope.

(* ===================================================================== *)
(** ** Python strings *)
(* ===================================================================== *)

Module PyStr.

Abbreviation char := N.
Abbreviation pystr := (list N).

(** [u "text"] is the Python string with the code points of an ASCII
    literal. *)
Definition u (s : string) : pystr :=
  List.map N_of_ascii (list_ascii_of_string s).

Definition LF : char := 10.
Definition CR : char := 13.

(** The double quote and the backslash, as one-character strings. *)
Definition DQ : pystr := [34].
Definition BSL : pystr := [92].

(** Line boundaries of [str.splitlines]. *)
Definition is_linebreak (c : char) : bool :=
  (c =? 10) || (c =? 11) || (c =? 12) || (c =? 13) || (c =? 28) ||
  (c =? 29) || (c =? 30) || (c =? 133) || (c =? 8232) || (c =? 8233).

(** Whitespace of [str.strip] and [str.isspace]. *)
Definition is_space (c : char) : bool :=
  ((9 <=? c) && (c <=? 13)) || ((28 <=? c) && (c <=? 32)) ||
  (c =? 133) || (c =? 160) || (c =? 5760) ||
  ((8192 <=? c) && (c <=? 8202)) || (c =? 8232) || (c =? 8233) ||
  (c =? 8239) || (c =? 8287) || (c =? 12288).

(** [not s], for a string or a list. *)
Definition is_empty {A} (s : list A) : bool :=
  match s with [] => true | _ => false end.

Fixpoint eqb (a b : pystr) : bool :=
  match a, b with
  | [], [] => true
  | x :: a', y :: b' => (x =? y) && eqb a' b'
  | _, _ => false
  end.

(** [s.startswith(p)] *)
Fixpoint startswith (p s : pystr) : bool :=
  match p, s with
  | [], _ => true
  | x :: p', y :: s' => (x =? y) && startswith p' s'
  | _ :: _, [] => false
  end.

(** [s.endswith(p)] *)
Definition endswith (p s : pystr) : bool :=
  startswith (rev p) (rev s).

(** [p in s] *)
Fixpoint contains (p s : pystr) : bool :=
  startswith p s ||
  match s with
  | [] => false
  | _ :: s' => contains p s'
  end.

Fixpoint lstrip (s : pystr) : pystr :=
  match s with
  | [] => []
  | c :: s' => if is_space c then lstrip s' else s
  end.

Fixpoint rstrip (s : pystr) : pystr :=
  match s with
  | [] => []
  | c :: s' =>
      match rstrip s' with
      | [] => if is_space c then [] else [c]
      | r => c :: r
      end
  end.

Definition strip (s : pystr) : pystr := rstrip (lstrip s).

(** [sep.join(parts)] *)
Fixpoint join (sep : pystr) (parts : list pystr) : pystr :=
  match parts with
  | [] => []
  | [x] => x
  | x :: rest => x ++ sep ++ join sep rest
  end.

(** [s.splitlines()]: lines without their terminators; CR LF is one
    terminator; a terminator at the very end opens no further line. *)
Fixpoint splitlines (s : pystr) : list pystr :=
  match s with
  | [] => []
  | c :: s' =>
      if is_linebreak c then
        if c =? CR then
          match s' with
          | d :: s'' => if d =? LF then [] :: splitlines s''
                        else [] :: splitlines s'
          | [] => [[]]
          end
        else [] :: splitlines s'
      else
        match splitlines s' with
        | [] => [[c]]
        | l :: ls => (c :: l) :: ls
        end
  end.

(** [s.split(sep)] for a non-empty separator.  [skip] counts the code
    points of a separator that was just matched and are still to be
    passed over. *)
Fixpoint split_from (sep : pystr) (skip : nat) (s : pystr) : list pystr :=
  match s with
  | [] => [[]]
  | c :: s' =>
      match skip with
      | S k => split_from sep k s'
      | O =>
          if startswith sep s then [] :: split_from sep (length sep - 1) s'
          else
            match split_from sep 0 s' with
            | [] => [[c]]
            | l :: ls => (c :: l) :: ls
            end
      end
  end.

Definition split (sep s : pystr) : list pystr := split_from sep 0 s.

(** [s.split(sep, 1)] when [sep in s]: the text before the first
    occurrence and the text after it. *)
Fixpoint split_once (sep s : pystr) : option (pystr * pystr) :=
  if startswith sep s then Some ([], drop (length sep) s)
  else
    match s with
    | [] => None
    | c :: s' =>
        match split_once sep s' with
        | Some (a, b) => Some (c :: a, b)
        | None => None
        end
    end.

(** [s.replace(old, new)]: occurrences of [old] are found left to right
    and do not overlap.  An empty [old] matches between all code
    points. *)
Fixpoint replace_from (old new : pystr) (skip : nat) (s : pystr) : pystr :=
  match s with
  | [] => []
  | c :: s' =>
      match skip with
      | S k => replace_from old new k s'
      | O =>
          if startswith old s
          then new ++ replace_from old new (length old - 1) s'
          else c :: replace_from old new 0 s'
      end
  end.

Definition replace (old new s : pystr) : pystr :=
  match old with
  | [] => new ++ flat_map (fun c => c :: new) s
  | _ => replace_from old new 0 s
  end.

(** [s[1:-1]] *)
Definition slice_1_m1 (s : pystr) : pystr := removelast (tail s).

(** [s[1:]] *)
Definition slice_1 (s : pystr) : pystr := tail s.

End PyStr.
Import PyStr.

(* ===================================================================== *)
(** ** Python values, exceptions and results *)
(* ===================================================================== *)

Module Py.

(** The exception classes that can reach the code under study.
    [UnicodeDecodeError] is a subclass of [ValueError]; the others are
    unrelated to each other. *)
Inductive exn :=
| OSError (msg : pystr)
| SyntaxError
| ValueError
| UnicodeDecodeError
| TypeError
| MemoryError
| RecursionError.

(** A call either returns or raises. *)
Inductive outcome (A : Type) :=
| Return (a : A)
| Raise (e : exn).
Arguments Return {A} a.
Arguments Raise {A} e.

Definition bind {A B} (m : outcome A) (k : A -> outcome B) : outcome B :=
  match m with
  | Return a => k a
  | Raise e => Raise e
  end.

(** [except (SyntaxError, ValueError)] *)
Definition is_SyntaxError_or_ValueError (e : exn) : bool :=
  match e with
  | SyntaxError | ValueError | UnicodeDecodeError => true
  | _ => false
  end.

(** The objects a frontmatter value can be.  The scripts test a value
    for [str] and for [list], and otherwise only take [str()] of it: any
    object that is neither (a number, [True], [None], bytes, a tuple, a
    dict, a set) is carried as the text [str()] gives for it, which for
    these classes is also its [repr()]. *)
Inductive pyval :=
| VStr (s : pystr)
| VList (items : list pyval)
| VOther (shown : pystr).

(** [isinstance(v, str)] *)
Definition is_str (v : pyval) : bool :=
  match v with VStr _ => true | _ => false end.

Section Str.
(** [repr] of a [str] object. *)
Variable repr_str : pystr -> pystr.

Fixpoint py_repr (v : pyval) : pystr :=
  match v with
  | VStr s => repr_str s
  | VOther t => t
  | VList items =>
      u "[" ++ join (u ", ") (List.map py_repr items) ++ u "]"
  end.

(** [str(v)] *)
Definition py_str (v : pyval) : pystr :=
  match v with
  | VStr s => s
  | _ => py_repr v
  end.
End Str.

End Py.
Import Py.

#[export] Instance outcome_ret : MRet outcome := @Return.
#[export] Instance outcome_bind : MBind outcome :=
  fun A B k m => bind m k.

(* ===================================================================== *)
(** ** An executable fragment of [ast.literal_eval] *)
(* ===================================================================== *)

(** [ast.literal_eval] first parses its argument as a Python expression
    ([SyntaxError] when that fails) and then converts the syntax tree,
    raising [ValueError] ("malformed node or string") at any node that is
    not a literal.  The fragment below covers list displays, nested below
    a fixed depth, of: string literals in single or double quotes made of
    printable ASCII without backslash; decimal integers of at most 18
    digits without leading zero; [True], [False], [None]; and other
    identifiers, which parse as names and make the conversion raise
    [ValueError].  [literal_eval_fragment] answers [None] on any other
    text. *)

Module LiteralFragment.

Inductive token :=
| TOpen | TClose | TComma
| TString (s : pystr)
| TWord (w : pystr).

Inductive lexmode :=
| Idle
| InString (quote : char) (acc : pystr)
| InWord (acc : pystr).

Definition is_digit (c : char) : bool := (48 <=? c) && (c <=? 57).

Definition is_word_char (c : char) : bool :=
  is_digit c || ((65 <=? c) && (c <=? 90)) || ((97 <=? c) && (c <=? 122)) ||
  (c =? 95).

Definition is_quote (c : char) : bool := (c =? 39) || (c =? 34).

Definition is_plain_char (c : char) : bool :=
  (32 <=? c) && (c <=? 126) && negb (c =? 92).

(** One code point read outside a string or word: the tokens it yields
    and the mode it leaves the scanner in. *)
Definition lex_idle (c : char) : option (list token * lexmode) :=
  if (c =? 32) || (c =? 9) then Some ([], Idle)
  else if c =? 91 then Some ([TOpen], Idle)
  else if c =? 93 then Some ([TClose], Idle)
  else if c =? 44 then Some ([TComma], Idle)
  else if is_quote c then Some ([], InString c [])
  else if is_word_char c then Some ([], InWord [c])
  else None.

Fixpoint lex (m : lexmode) (s : pystr) : option (list token) :=
  match s with
  | [] =>
      match m with
      | Idle => Some []
      | InString _ _ => None
      | InWord acc => Some [TWord (rev acc)]
      end
  | c :: s' =>
      match m with
      | Idle =>
          match lex_idle c with
          | Some (ts, m') => option_map (app ts) (lex m' s')
          | None => None
          end
      | InString q acc =>
          if c =? q then option_map (cons (TString (rev acc))) (lex Idle s')
          else if is_plain_char c then lex (InString q (c :: acc)) s'
          else None
      | InWord acc =>
          if is_word_char c then lex (InWord (c :: acc)) s'
          else if is_quote c || (c =? 46) then None
          else
            match lex_idle c with
            | Some (ts, m') =>
                option_map (fun r => TWord (rev acc) :: ts ++ r) (lex m' s')
            | None => None
            end
      end
  end.

Inductive ast :=
| AString (s : pystr)
| AConst (shown : pystr)
| AName (id : pystr)
| AList (elts : list ast).

Definition keywords : list pystr :=
  List.map u
    ["and"; "as"; "assert"; "async"; "await"; "break"; "class"; "continue";
     "def"; "del"; "elif"; "else"; "except"; "finally"; "for"; "from";
     "global"; "if"; "import"; "in"; "is"; "lambda"; "nonlocal"; "not";
     "or"; "pass"; "raise"; "return"; "try"; "while"; "with"; "yield"]%string.

Definition classify_word (w : pystr) : option ast :=
  match w with
  | [] => None
  | c :: rest =>
      if is_digit c then
        if forallb is_digit rest && (length w <=? 18)%nat &&
           (negb (c =? 48) || is_empty rest)
        then Some (AConst w) else None
      else if existsb (PyStr.eqb w) (List.map u ["True"; "False"; "None"]%string)
      then Some (AConst w)
      else if existsb (PyStr.eqb w) keywords then None
      else Some (AName w)
  end.

Inductive position := AfterOpen | AfterItem | AfterComma.

(** A list display being read: its elements so far, last first. *)
Definition frame : Type := list ast * position.

Definition max_depth : nat := 64.

Definition add_item (a : ast) (stack : list frame) : option (list frame) :=
  match stack with
  | (items, AfterOpen) :: below | (items, AfterComma) :: below =>
      Some ((a :: items, AfterItem) :: below)
  | _ => None
  end.

Fixpoint parse (stack : list frame) (done : option ast) (ts : list token)
  : option ast :=
  match ts with
  | [] => match stack with [] => done | _ => None end
  | t :: ts' =>
      match done with
      | Some _ => None
      | None =>
          match t with
          | TOpen =>
              match stack with
              | [] => parse [([], AfterOpen)] None ts'
              | (_, AfterItem) :: _ => None
              | _ =>
                  if (length stack <? max_depth)%nat
                  then parse (([], AfterOpen) :: stack) None ts'
                  else None
              end
          | TClose =>
              match stack with
              | [] => None
              | (items, _) :: below =>
                  let a := AList (rev items) in
                  match below with
                  | [] => parse [] (Some a) ts'
                  | _ =>
                      match add_item a below with
                      | Some stack' => parse stack' None ts'
                      | None => None
                      end
                  end
              end
          | TComma =>
              match stack with
              | (items, AfterItem) :: below =>
                  parse ((items, AfterComma) :: below) None ts'
              | _ => None
              end
          | TString s =>
              match add_item (AString s) stack with
              | Some stack' => parse stack' None ts'
              | None => None
              end
          | TWord w =>
              match classify_word w with
              | Some a =>
                  match add_item a stack with
                  | Some stack' => parse stack' None ts'
                  | None => None
                  end
              | None => None
              end
          end
      end
  end.

(** The conversion of [literal_eval]: constants and lists are rebuilt,
    the first other node met raises [ValueError]. *)
Fixpoint convert (a : ast) : outcome pyval :=
  match a with
  | AString s => Return (VStr s)
  | AConst t => Return (VOther t)
  | AName _ => Raise ValueError
  | AList elts =>
      items ← (fix go (l : list ast) : outcome (list pyval) :=
                 match l with
                 | [] => Return []
                 | x :: l' => v ← convert x; vs ← go l'; Return (v :: vs)
                 end) elts;
      Return (VList items)
  end.

Definition literal_eval_fragment (s : pystr) : option (outcome pyval) :=
  match lex Idle s with
  | Some ts =>
      match parse [] None ts with
      | Some a => Some (convert a)
      | None => None
      end
  | None => None
  end.

(** The fragment made total, to run examples: a text outside the
    fragment is answered with [SyntaxError], which is what the runtime
    does on most but not all such texts.  The examples of this file only
    evaluate fragment texts. *)
Definition literal_eval (s : pystr) : outcome pyval :=
  match literal_eval_fragment s with
  | Some o => o
  | None => Raise SyntaxError
  end.

(** [repr] of a string of printable ASCII without quotes or backslash. *)
Definition repr_str (s : pystr) : pystr := u "'" ++ s ++ u "'".

End LiteralFragment.

(* ===================================================================== *)
(** ** The frontmatter parser *)
(* ===================================================================== *)

(** [parse_yaml_value] and [parse_frontmatter] are carried, with the same
    text, by each of the three scripts. *)

Module Frontmatter.

Section Parser.
(** [ast.literal_eval] on a string. *)
Variable literal_eval : pystr -> outcome pyval.

Definition parse_yaml_value (raw_value : pystr) : outcome pyval :=
  let value := strip raw_value in
  if is_empty value then Return (VStr [])
  else if startswith (u "[") value && endswith (u "]") value then
    match literal_eval value with
    | Return literal => Return literal
    | Raise e =>
        if is_SyntaxError_or_ValueError e then Return (VStr value)
        else Raise e
    end
  else if (startswith DQ value && endswith DQ value) ||
          (startswith (u "'") value && endswith (u "'") value)
  then Return (VStr (slice_1_m1 value))
  else Return (VStr value).

(** [for index in range(start, len(lines)): if test(lines[index]): ...
    break]: the first index from [start] on whose line passes [test]. *)
Fixpoint find_line (test : pystr -> bool) (index : nat) (lines : list pystr)
  : option nat :=
  match lines with
  | [] => None
  | line :: rest =>
      if test line then Some index else find_line test (S index) rest
  end.

Definition find_from (test : pystr -> bool) (start : nat)
    (lines : list pystr) : option nat :=
  find_line test start (drop start lines).

(** [line.strip() == marker] *)
Definition stripped_is (marker line : pystr) : bool :=
  PyStr.eqb (strip line) marker.

(** The loop over [frontmatter_lines], on the dictionary and the warning
    list it updates. *)
Fixpoint parse_lines (frontmatter_lines : list pystr)
    (metadata : gmap pystr pyval) (warnings : list pystr)
  : outcome (gmap pystr pyval * list pystr) :=
  match frontmatter_lines with
  | [] => Return (metadata, warnings)
  | line :: rest =>
      let stripped := strip line in
      if is_empty stripped || startswith (u "#") stripped
      then parse_lines rest metadata warnings
      else
      if negb (contains (u ":") line) then
        parse_lines rest metadata
          (warnings ++ [u "Unrecognized frontmatter line: " ++ line])
      else
        match split_once (u ":") line with
        | Some (key, raw_value) =>
            v ← parse_yaml_value raw_value;
            parse_lines rest (<[strip key := v]> metadata) warnings
        | None => Raise ValueError
        end
  end.

Definition parse_frontmatter (text : pystr)
  : outcome (gmap pystr pyval * pystr * list pystr) :=
  let lines := splitlines text in
  match lines with
  | [] => Return (∅, text, [])
  | first :: _ =>
      if negb (stripped_is (u "---") first) then Return (∅, text, [])
      else
        match find_from (stripped_is (u "---")) 1 lines with
        | None =>
            Return (∅, text, [u "Frontmatter start found without closing '---'."])
        | Some end_index =>
            let frontmatter_lines := take (end_index - 1) (drop 1 lines) in
            let body_lines := drop (end_index + 1) lines in
            '(metadata, warnings) ← parse_lines frontmatter_lines ∅ [];
            Return (metadata, join [LF] body_lines, warnings)
        end
  end.

(** [literal_eval] raises nothing but what [parse_yaml_value] catches. *)
Definition raises_only_caught : Prop :=
  forall v e, literal_eval v = Raise e -> is_SyntaxError_or_ValueError e = true.

End Parser.
End Frontmatter.
Import Frontmatter.

(* ===================================================================== *)
(** ** Files, paths and conversion results *)
(* ===================================================================== *)

Module Files.

(** A [pathlib.Path] to a file: the directory it is in and its final
    component. *)
Record Path := mkPath { parent : pystr; name : pystr }.

(** [str(path)] *)
Definition path_str (p : Path) : pystr := parent p ++ u "/" ++ name p.

(** [name.rfind(".")] *)
Fixpoint rfind_char (c : char) (s : pystr) : option nat :=
  match s with
  | [] => None
  | x :: s' =>
      match rfind_char c s' with
      | Some i => Some (S i)
      | None => if x =? c then Some O else None
      end
  end.

(** [path.stem]: the final component without its last suffix. *)
Definition stem (p : Path) : pystr :=
  match rfind_char 46 (name p) with
  | Some i =>
      if ((0 <? i) && (i <? length (name p) - 1))%nat
      then take i (name p) else name p
  | None => name p
  end.

(** The file system as the scripts use it.  Reading decodes UTF-8 and
    raises [OSError] when the file cannot be opened and
    [UnicodeDecodeError] when its bytes are not UTF-8; writing and
    directory creation change the world and may raise [OSError]. *)
Class FileSystem (W : Type) := {
  read_text : W -> Path -> outcome pystr;
  write_text : W -> Path -> pystr -> W * outcome unit;
  mkdir : W -> pystr -> W * outcome unit;
  is_file : W -> Path -> bool;
  sorted_glob : W -> pystr -> pystr -> list Path;
}.

Record ConversionResult := mkResult {
  source : Path;
  destination : option Path;
  success : bool;
  warnings : list pystr;
  error : option pystr;
}.

(** Decimal text of a counter. *)
Definition str_nat (n : nat) : pystr :=
  u (DecimalString.NilEmpty.string_of_uint (Nat.to_uint n)).

(** [str(x)] for an optional string ([None] prints as [None]). *)
Definition str_opt (o : option pystr) : pystr :=
  match o with Some s => s | None => u "None" end.

End Files.
Import Files.

(* ===================================================================== *)
(** ** Code shared by the tools *)
(* ===================================================================== *)

Module Shared.

(** The product-name replacements.  [prompts2commands.py] has them as
    [normalize_text]; the two rule emitters apply the same chain in
    line. *)
Definition normalize_text (text : pystr) : pystr :=
  replace (u "VSCode") (u "Cursor")
    (replace (u "VS Code") (u "Cursor")
       (replace (u "Visual Studio Code") (u "Cursor")
          (replace (u "GitHub Copilot") (u "Cursor AI") text))).

(** [yaml_quote], in both rule emitters. *)
Definition yaml_quote (value : pystr) : pystr :=
  let escaped := replace DQ (BSL ++ DQ) (replace BSL (BSL ++ BSL) value) in
  DQ ++ escaped ++ DQ.

(** [extract_chatagent_block] and [extract_prompt_block] differ in the
    fence marker and in the warning text only. *)
Definition extract_block (marker warning : pystr) (text : pystr)
  : pystr * list pystr :=
  let lines := splitlines text in
  match find_from (fun line => startswith marker (strip line)) 0 lines with
  | None => (text, [])
  | Some start_index =>
      match find_from (stripped_is (u "```")) (start_index + 1) lines with
      | None => (text, [warning])
      | Some end_index =>
          let inner_lines :=
            take (end_index - (start_index + 1)) (drop (start_index + 1) lines) in
          (join [LF] inner_lines, [])
      end
  end.

(** [isinstance(description, str) and description.strip()] on the result
    of [metadata.get(key)]. *)
Definition nonblank_str (o : option pyval) : option pystr :=
  match o with
  | Some (VStr s) => if is_empty (strip s) then None else Some s
  | _ => None
  end.

(** The batch part of [main], the same in the three tools up to the
    message texts: [kind] is the source suffix named in the messages. *)
Section Driver.
Context {W : Type} `{FileSystem W}.
Variable convert_file : W -> Path -> pystr -> W * outcome ConversionResult.
Variable kind : pystr.
Variables source_dir destination_dir : pystr.

Record totals := mkTotals {
  converted : nat;
  failed : nat;
  warning_count : nat;
}.

Definition report (result : ConversionResult) (t : totals)
    (out : list pystr) : totals * list pystr :=
  let '(t1, out1) :=
    if success result then
      (mkTotals (converted t + 1) (failed t) (warning_count t),
       match destination result with
       | Some d =>
           out ++ [u "Converted: " ++ path_str (source result) ++ u " -> " ++
                   path_str d]
       | None => out
       end)
    else
      (mkTotals (converted t) (failed t + 1) (warning_count t),
       out ++ [u "Failed: " ++ path_str (source result) ++ u " (" ++
               str_opt (error result) ++ u ")"]) in
  (mkTotals (converted t1) (failed t1)
     (warning_count t1 + length (warnings result)),
   out1 ++ List.map (fun warning => u "Warning: " ++
                       path_str (source result) ++ u ": " ++ warning)
             (warnings result)).

(** [for source in sources: ...] *)
Fixpoint convert_each (w : W) (t : totals) (out : list pystr)
    (sources : list Path) : W * list pystr * outcome totals :=
  match sources with
  | [] => (w, out, Return t)
  | source :: rest =>
      match convert_file w source destination_dir with
      | (w', Raise e) => (w', out, Raise e)
      | (w', Return result) =>
          let '(t', out') := report result t out in
          convert_each w' t' out' rest
      end
  end.

(** What converting the sources one after the other gives for each, up
    to and with the first exception. *)
Fixpoint outcomes (w : W) (sources : list Path)
  : list (outcome ConversionResult) :=
  match sources with
  | [] => []
  | source :: rest =>
      match convert_file w source destination_dir with
      | (w', Return result) => Return result :: outcomes w' rest
      | (_, Raise e) => [Raise e]
      end
  end.

(** The file was not converted: its result is a failure, or converting
    it raised. *)
Definition not_converted (o : outcome ConversionResult) : Prop :=
  match o with
  | Return result => success result = false
  | Raise _ => True
  end.

(** [main] from [if not sources:] to its end. *)
Definition run_batch (w : W) (out : list pystr) (sources : list Path)
  : W * list pystr * outcome Z :=
  match sources with
  | [] => (w, out ++ [u "No " ++ kind ++ u " files found to convert."],
           Return 0%Z)
  | _ =>
      match convert_each w (mkTotals 0 0 0) out sources with
      | (w', out', Raise e) => (w', out', Raise e)
      | (w', out', Return t) =>
          (w',
           out' ++ [u "Summary: converted=" ++ str_nat (converted t) ++
                    u ", failed=" ++ str_nat (failed t) ++
                    u ", warnings=" ++ str_nat (warning_count t)],
           Return (if (failed t =? 0)%nat then 0%Z else 1%Z))
      end
  end.

(** [main]; [arg_file] is the resolved path of the optional argument. *)
Definition main (w : W) (arg_file : option Path)
  : W * list pystr * outcome Z :=
  match mkdir w destination_dir with
  | (w1, Raise e) => (w1, [], Raise e)
  | (w1, Return _) =>
      match arg_file with
      | Some source_path =>
          if negb (is_file w1 source_path) then
            (w1, [u "Error: file not found: " ++ path_str source_path],
             Return 1%Z)
          else if negb (endswith kind (name source_path)) then
            (w1, [u "Error: input must be a " ++ kind ++ u " file."],
             Return 1%Z)
          else run_batch w1 [] [source_path]
      | None =>
          run_batch w1 [] (sorted_glob w1 source_dir (u "*" ++ kind))
      end
  end.

End Driver.

(** The status the process exits with: [raise SystemExit(main())], and 1
    when an exception leaves [main]. *)
Definition exit_status (r : outcome Z) : Z :=
  match r with
  | Return code => code
  | Raise _ => 1%Z
  end.

End Shared.
Import Shared.

(* ===================================================================== *)
(** ** [agents2rules.py] *)
(* ===================================================================== *)

Module Agents.

Definition extract_chatagent_block : pystr -> pystr * list pystr :=
  extract_block (u "```chatagent")
    (u "Chatagent block start found without closing ```.").

Definition build_rule_content (description body : pystr) : pystr :=
  let normalized_description := normalize_text description in
  let normalized_body := normalize_text body in
  let lines :=
    [u "---";
     u "description: " ++ yaml_quote normalized_description;
     u "globs: []";
     u "alwaysApply: false";
     u "---"] in
  let body_text :=
    if startswith [LF] normalized_body then slice_1 normalized_body
    else normalized_body in
  if negb (is_empty body_text)
  then join [LF] lines ++ [LF] ++ body_text ++ [LF]
  else join [LF] lines ++ [LF].

Section Tool.
Context {W : Type} `{FileSystem W}.
Variable literal_eval : pystr -> outcome pyval.

Definition convert_file (w : W) (source_path : Path) (destination_dir : pystr)
  : W * outcome ConversionResult :=
  match read_text w source_path with
  | Raise (OSError msg) =>
      (w, Return (mkResult source_path None false [] (Some msg)))
  | Raise e => (w, Raise e)
  | Return text =>
      let '(chatagent_text, chatagent_warnings) :=
        extract_chatagent_block text in
      match parse_frontmatter literal_eval chatagent_text with
      | Raise e => (w, Raise e)
      | Return (metadata, body, parse_warnings) =>
          let warnings := chatagent_warnings ++ parse_warnings in
          let description :=
            match nonblank_str (metadata !! u "description") with
            | Some d => d
            | None =>
                match nonblank_str (metadata !! u "name") with
                | Some d => d
                | None => replace (u ".agent") [] (stem source_path)
                end
            end in
          let rule_content := build_rule_content description body in
          let output_name :=
            replace (u ".agent.md") (u ".mdc") (name source_path) in
          let destination_path := mkPath destination_dir output_name in
          match write_text w destination_path rule_content with
          | (w', Raise (OSError msg)) =>
              (w', Return (mkResult source_path (Some destination_path) false
                             warnings (Some msg)))
          | (w', Raise e) => (w', Raise e)
          | (w', Return _) =>
              (w', Return (mkResult source_path (Some destination_path) true
                             warnings None))
          end
      end
  end.

Variable repo_root : pystr.

Definition main : W -> option Path -> W * list pystr * outcome Z :=
  Shared.main convert_file (u ".agent.md")
    (repo_root ++ u "/copilot/agents") (repo_root ++ u "/cursor/rules").

End Tool.
End Agents.

(* ===================================================================== *)
(** ** [instructions2rules.py] *)
(* ===================================================================== *)

Module Instructions.

Section Tool.
Context {W : Type} `{FileSystem W}.
Variable literal_eval : pystr -> outcome pyval.
Variable repr_str : pystr -> pystr.

(** [apply_to] is the result of [metadata.get("applyTo")]. *)
Definition normalize_globs (apply_to : option pyval) : list pystr :=
  match apply_to with
  | None => []
  | Some v =>
      let items :=
        match v with
        | VList l => List.map (fun item => strip (py_str repr_str item)) l
        | _ => List.map strip (split (u ",") (py_str repr_str v))
        end in
      List.filter (fun item => negb (is_empty item)) items
  end.

Definition build_rule_content (description : pystr) (globs : list pystr)
    (always_apply : bool) (body : pystr) : pystr :=
  let normalized_description := normalize_text description in
  let normalized_body := normalize_text body in
  let lines :=
    [u "---"; u "description: " ++ yaml_quote normalized_description] ++
    (if negb (is_empty globs)
     then u "globs:" :: List.map (fun glob => u "  - " ++ yaml_quote glob) globs
     else [u "globs: []"]) ++
    [u "alwaysApply: " ++ (if always_apply then u "true" else u "false");
     u "---"] in
  let body_text :=
    if startswith [LF] normalized_body then slice_1 normalized_body
    else normalized_body in
  if negb (is_empty body_text)
  then join [LF] lines ++ [LF] ++ body_text ++ [LF]
  else join [LF] lines ++ [LF].

(** [any(glob in {"*", "**"} for glob in globs)] *)
Definition always_apply_of (globs : list pystr) : bool :=
  existsb (fun glob => PyStr.eqb glob (u "*") || PyStr.eqb glob (u "**")) globs.

Definition convert_file (w : W) (source_path : Path) (destination_dir : pystr)
  : W * outcome ConversionResult :=
  match read_text w source_path with
  | Raise (OSError msg) =>
      (w, Return (mkResult source_path None false [] (Some msg)))
  | Raise e => (w, Raise e)
  | Return text =>
      match parse_frontmatter literal_eval text with
      | Raise e => (w, Raise e)
      | Return (metadata, body, parse_warnings) =>
          let warnings := parse_warnings in
          let description :=
            match nonblank_str (metadata !! u "description") with
            | Some d => d
            | None => replace (u ".instructions") [] (stem source_path)
            end in
          let apply_to := metadata !! u "applyTo" in
          let globs := normalize_globs apply_to in
          let always_apply := always_apply_of globs in
          let rule_content :=
            build_rule_content description globs always_apply body in
          let output_name :=
            replace (u ".instructions.md") (u ".mdc") (name source_path) in
          let destination_path := mkPath destination_dir output_name in
          match write_text w destination_path rule_content with
          | (w', Raise (OSError msg)) =>
              (w', Return (mkResult source_path (Some destination_path) false
                             warnings (Some msg)))
          | (w', Raise e) => (w', Raise e)
          | (w', Return _) =>
              (w', Return (mkResult source_path (Some destination_path) true
                             warnings None))
          end
      end
  end.

Variable repo_root : pystr.

Definition main : W -> option Path -> W * list pystr * outcome Z :=
  Shared.main convert_file (u ".instructions.md")
    (repo_root ++ u "/copilot/instructions") (repo_root ++ u "/cursor/rules").

End Tool.
End Instructions.

(* ===================================================================== *)
(** ** [prompts2commands.py] *)
(* ===================================================================== *)

Module Prompts.

Definition extract_prompt_block : pystr -> pystr * list pystr :=
  extract_block (u "```prompt")
    (u "Prompt block start found without closing ```.").

Definition normalize_text : pystr -> pystr := Shared.normalize_text.

Section Tool.
Context {W : Type} `{FileSystem W}.
Variable literal_eval : pystr -> outcome pyval.
(** [str.title] *)
Variable title : pystr -> pystr.

Definition build_command_content (description : option pystr)
    (body filename_stem : pystr) : pystr :=
  let normalized_body := normalize_text body in
  let normalized_description :=
    match description with
    | Some d => if is_empty d then [] else normalize_text d
    | None => []
    end in
  let title_text :=
    title (replace (u "_") (u " ") (replace (u "-") (u " ") filename_stem)) in
  let parts :=
    [u "# " ++ title_text] ++
    (if negb (is_empty normalized_description)
     then [normalized_description] else []) ++
    [[]; u "Use any text after the command as additional context."; []] ++
    (if negb (is_empty normalized_body) then [normalized_body] else []) in
  rstrip (join [LF] parts) ++ [LF].

Definition description_warning : pystr :=
  u "Description is not a string; using filename instead.".

Definition convert_file (w : W) (source_path : Path) (destination_dir : pystr)
  : W * outcome ConversionResult :=
  match read_text w source_path with
  | Raise (OSError msg) =>
      (w, Return (mkResult source_path None false [] (Some msg)))
  | Raise e => (w, Raise e)
  | Return text =>
      let '(prompt_text, prompt_warnings) := extract_prompt_block text in
      match parse_frontmatter literal_eval prompt_text with
      | Raise e => (w, Raise e)
      | Return (metadata, body, parse_warnings) =>
          let warnings := prompt_warnings ++ parse_warnings in
          let '(description, warnings) :=
            match metadata !! u "description" with
            | Some (VStr d) => (Some d, warnings)
            | Some _ => (None, warnings ++ [description_warning])
            | None => (None, warnings)
            end in
          let output_name :=
            replace (u ".prompt.md") (u ".md") (name source_path) in
          let destination_path := mkPath destination_dir output_name in
          let filename_stem := replace (u ".prompt") [] (stem source_path) in
          let command_content :=
            build_command_content description body filename_stem in
          match write_text w destination_path command_content with
          | (w', Raise (OSError msg)) =>
              (w', Return (mkResult source_path (Some destination_path) false
                             warnings (Some msg)))
          | (w', Raise e) => (w', Raise e)
          | (w', Return _) =>
              (w', Return (mkResult source_path (Some destination_path) true
                             warnings None))
          end
      end
  end.

Variable repo_root : pystr.

Definition main : W -> option Path -> W * list pystr * outcome Z :=
  Shared.main convert_file (u ".prompt.md")
    (repo_root ++ u "/copilot/prompts") (repo_root ++ u "/cursor/commands").

End Tool.
End Prompts.

(* ===================================================================== *)
(** ** A file system in memory *)
(* ===================================================================== *)

(** An instance of [FileSystem] to run the tools on: each source file is
    listed with what reading it gives, some paths refuse writes, and the
    texts written are recorded in order. *)

Module MemoryFS.

Record world := mkWorld {
  files : list (Path * outcome pystr);
  unwritable : list Path;
  written : list (Path * pystr);
}.

Definition path_eqb (a b : Path) : bool :=
  PyStr.eqb (parent a) (parent b) && PyStr.eqb (name a) (name b).

Fixpoint lookup_file (p : Path) (l : list (Path * outcome pystr))
  : option (outcome pystr) :=
  match l with
  | [] => None
  | (q, r) :: l' => if path_eqb p q then Some r else lookup_file p l'
  end.

#[global] Instance memory_fs : FileSystem world := {
  read_text w p :=
    match lookup_file p (files w) with
    | Some r => r
    | None => Raise (OSError (u "[Errno 2] No such file or directory"))
    end;
  write_text w p content :=
    if existsb (path_eqb p) (unwritable w)
    then (w, Raise (OSError (u "[Errno 13] Permission denied")))
    else (mkWorld (files w) (unwritable w) (written w ++ [(p, content)]),
          Return tt);
  mkdir w d := (w, Return tt);
  is_file w p :=
    match lookup_file p (files w) with Some _ => true | None => false end;
  sorted_glob w d pattern :=
    List.filter
      (fun p => PyStr.eqb (parent p) d && endswith (slice_1 pattern) (name p))
      (List.map fst (files w));
}.

(** [str.title] on ASCII text. *)
Fixpoint title_from (previous_is_cased : bool) (s : pystr) : pystr :=
  match s with
  | [] => []
  | c :: s' =>
      let is_upper := (65 <=? c) && (c <=? 90) in
      let is_lower := (97 <=? c) && (c <=? 122) in
      (if previous_is_cased
       then (if is_upper then c + 32 else c)
       else (if is_lower then c - 32 else c))
      :: title_from (is_upper || is_lower) s'
  end.

Definition title : pystr -> pystr := title_from false.

End MemoryFS.

(* ===================================================================== *)
(** ** Vocabulary of the properties *)
(* ===================================================================== *)

(** [inert q r]: an inserted copy of [r] cannot take part in an
    occurrence of [q]: the first code point of [q] is not in [r], [q]
    does not end with the first code point of [r], and the first two
    code points of [r] do not occur in [q] side by side. *)
Definition inert (q r : pystr) : bool :=
  match q, r with
  | c :: _, r0 :: r1 :: _ =>
      negb (existsb (N.eqb c) r) && negb (endswith [r0] q) &&
      negb (contains [r0; r1] q)
  | _, _ => false
  end.

Abbreviation no_linebreak := (Forall (fun c : char => is_linebreak c = false)).

(** The body as it is written out: the normalized body without its
    first code point when that is a line feed. *)
Definition emitted_body (body : pystr) : pystr :=
  let normalized_body := normalize_text body in
  if startswith [LF] normalized_body then slice_1 normalized_body
  else normalized_body.

(** [value.startswith("[") and value.endswith("]")] *)
Definition bracketed (value : pystr) : bool :=
  startswith (u "[") value && endswith (u "]") value.

(** The value is wrapped in a pair of double or of single quotes. *)
Definition quoted (value : pystr) : bool :=
  (startswith DQ value && endswith DQ value) ||
  (startswith (u "'") value && endswith (u "'") value).

(** The text of the scenario: applyTo "*.go, *.rs" and a description. *)
Definition go_rust_instructions : pystr :=
  u "---" ++ [LF] ++ u "applyTo: " ++ DQ ++ u "*.go, *.rs" ++ DQ ++ [LF] ++
  u "description: " ++ DQ ++ u "Go/Rust style" ++ DQ ++ [LF] ++
  u "---" ++ [LF] ++ u "Body text".

Abbreviation no_description_warning :=
  (Forall (fun warning : pystr => warning <> Prompts.description_warning)).

(** A source directory with two agent files, the first of which is not
    UTF-8. *)
Definition two_agents_one_undecodable : MemoryFS.world :=
  MemoryFS.mkWorld
    [(mkPath (u "repo/copilot/agents") (u "a.agent.md"),
      Raise UnicodeDecodeError);
     (mkPath (u "repo/copilot/agents") (u "b.agent.md"),
      Return (u "Body"))]
    [] [].

(** The lines and the end of an emitted rule. *)
Definition flag_text (always_apply : bool) : pystr :=
  if always_apply then u "true" else u "false".

Definition description_line_of (description : pystr) : pystr :=
  u "description: " ++ yaml_quote (normalize_text description).

Definition body_part_of (body : pystr) : pystr :=
  if is_empty (emitted_body body) then [] else emitted_body body ++ [LF].

(** The escaping done by [yaml_quote]. *)
Definition escaped (value : pystr) : pystr :=
  replace DQ (BSL ++ DQ) (replace BSL (BSL ++ BSL) value).

(** ** Vocabulary of the further properties *)

(** The frontmatter line is neither blank nor a comment. *)
Definition is_entry (line : pystr) : bool :=
  negb (is_empty (strip line) || startswith (u "#") (strip line)).

(** An entry without a colon. *)
Definition is_unrecognized (line : pystr) : bool :=
  is_entry line && negb (contains (u ":") line).

(** The warning given for an entry without a colon. *)
Definition unrecognized_warning (line : pystr) : pystr :=
  u "Unrecognized frontmatter line: " ++ line.

(** What [yaml_quote] writes for one code point. *)
Definition escape_char (c : char) : pystr :=
  if c =? 92 then [92; 92] else if c =? 34 then [92; 34] else [c].

(** The code points [yaml_quote] puts a backslash before. *)
Definition needs_escape (c : char) : bool := (c =? 92) || (c =? 34).

(** None of the four source product names occurs in the text. *)
Definition free_of_product_names (text : pystr) : bool :=
  negb (contains (u "GitHub Copilot") text) &&
  negb (contains (u "Visual Studio Code") text) &&
  negb (contains (u "VS Code") text) &&
  negb (contains (u "VSCode") text).

(** The fixed line of a command file. *)
Definition instruction_line : pystr :=
  u "Use any text after the command as additional context.".

(** No proper, non-empty end of the pattern is also a beginning of it:
    two occurrences of the pattern cannot overlap. *)
Definition unbordered (p : pystr) : bool :=
  forallb (fun k => negb (startswith (drop k p) p)) (seq 1 (length p - 1)).

(** What holds of the result of converting [source_path], between the
    world before and the world after: it names its source; it is a
    success exactly when it carries no error; its destination, when it
    has one, is in the destination directory; and it has none only when
    the conversion failed before anything was written. *)
Definition result_invariant {W : Type} (w w' : W) (source_path : Path)
    (destination_dir : pystr) (result : ConversionResult) : Prop :=
  source result = source_path /\
  (success result = true <-> error result = None) /\
  match destination result with
  | Some d => parent d = destination_dir
  | None => success result = false /\ w' = w
  end.

(** Reading [source_path] and writing raise nothing but [OSError] in the
    world [w]. *)
Definition only_os_errors {W : Type} `{FileSystem W} (w : W)
    (source_path : Path) : Prop :=
  (forall e, read_text w source_path = Raise e -> exists msg, e = OSError msg) /\
  (forall d content w' e,
      write_text w d content = (w', Raise e) -> exists msg, e = OSError msg).

(** The lines printed for one result: its status line, then one line
    for each of its warnings. *)
Definition result_lines (result : ConversionResult) : list pystr :=
  (if success result then
     match destination result with
     | Some d =>
         [u "Converted: " ++ path_str (source result) ++ u " -> " ++ path_str d]
     | None => []
     end
   else
     [u "Failed: " ++ path_str (source result) ++ u " (" ++
      str_opt (error result) ++ u ")"]) ++
  List.map (fun warning => u "Warning: " ++ path_str (source result) ++
                           u ": " ++ warning)
    (warnings result).

(** The summary line for a list of results. *)
Definition summary_line (results : list ConversionResult) : pystr :=
  u "Summary: converted=" ++
  str_nat (length (List.filter success results)) ++
  u ", failed=" ++
  str_nat (length (List.filter (fun r => negb (success r)) results)) ++
  u ", warnings=" ++
  str_nat (length (concat (List.map warnings results))).

(* ===================================================================== *)
(** * Properties *)
(* ===================================================================== *)

(** ** The runtime routines on examples *)

Example splitlines_ex :
  splitlines (u "a" ++ [CR; LF] ++ u "b" ++ [LF; LF]) = [u "a"; u "b"; []].
Proof. vm_compute. reflexivity. Qed.

Example literal_eval_names :
  LiteralFragment.literal_eval_fragment (u "[a, b, c]") = Some (Raise ValueError).
Proof. vm_compute. reflexivity. Qed.

Example literal_eval_strings :
  LiteralFragment.literal_eval_fragment (u "['a', 'b', [1, None],]")
  = Some (Return (VList [VStr (u "a"); VStr (u "b");
                         VList [VOther (u "1"); VOther (u "None")]])).
Proof. vm_compute. reflexivity. Qed.

Example parse_frontmatter_ex :
  parse_frontmatter LiteralFragment.literal_eval
    (u "---" ++ [LF] ++ u "name: 'x'" ++ [LF] ++ u "tools: []" ++ [LF] ++
     u "oops" ++ [LF] ++ u "---" ++ [CR; LF] ++ u "Body" ++ [LF])
  = Return (<[u "tools" := VList []]> (<[u "name" := VStr (u "x")]> ∅),
            u "Body", [u "Unrecognized frontmatter line: oops"]).
Proof. vm_compute. reflexivity. Qed.

Example title_ex : MemoryFS.title (u "my fIRST prompt2x") = u "My First Prompt2X".
Proof. vm_compute. reflexivity. Qed.

(** ** Strings: prefixes, occurrences and replacement *)

Section StringFacts.
Implicit Types (p q r s t : pystr) (c : char).

Lemma eqb_eq s t : PyStr.eqb s t = true <-> s = t.
Proof.
  revert t. induction s as [|x s IH]; intros [|y t]; simpl; try easy.
  rewrite andb_true_iff, N.eqb_eq, IH. split.
  - intros [-> ->]. reflexivity.
  - intros [= -> ->]. auto.
Qed.

Lemma eqb_refl s : PyStr.eqb s s = true.
Proof. apply eqb_eq. reflexivity. Qed.

Lemma startswith_spec p s :
  startswith p s = true <-> exists t, s = p ++ t.
Proof.
  revert s. induction p as [|x p IH]; intros s; simpl.
  - split; [intros _; exists s; reflexivity | reflexivity].
  - destruct s as [|y s].
    + split; [discriminate | intros [t Ht]; discriminate].
    + rewrite andb_true_iff, N.eqb_eq, IH. split.
      * intros [-> [t ->]]. exists t. reflexivity.
      * intros [t [= -> ->]]. split; [reflexivity | exists t; reflexivity].
Qed.

Lemma startswith_app p t : startswith p (p ++ t) = true.
Proof. apply startswith_spec. exists t. reflexivity. Qed.

(** A prefix of [a ++ b] is a prefix of [a], or it is [a] followed by
    a non-empty prefix of [b]. *)
Lemma startswith_app_inv q a b :
  startswith q (a ++ b) = true ->
  startswith q a = true \/
  exists q2, q = a ++ q2 /\ q2 <> [] /\ startswith q2 b = true.
Proof.
  revert q. induction a as [|x a IH]; intros q Hq; simpl in *.
  - destruct q as [|y q]; [left; reflexivity |].
    right. exists (y :: q). repeat split; [discriminate | exact Hq].
  - destruct q as [|y q]; [left; reflexivity |].
    simpl in Hq. apply andb_true_iff in Hq as [Hxy Hq].
    destruct (IH _ Hq) as [Ha | (q2 & -> & Hne & Hb)].
    + left. simpl. rewrite Hxy, Ha. reflexivity.
    + right. exists q2. apply N.eqb_eq in Hxy as ->. auto.
Qed.

Lemma startswith_weaken q a b :
  startswith q a = true -> startswith q (a ++ b) = true.
Proof.
  rewrite !startswith_spec. intros [t ->]. exists (t ++ b).
  rewrite <- app_assoc. reflexivity.
Qed.

Lemma contains_cons q c s :
  contains q (c :: s) = startswith q (c :: s) || contains q s.
Proof. reflexivity. Qed.

Lemma contains_nil q : q <> [] -> contains q [] = false.
Proof. destruct q; [congruence | reflexivity]. Qed.

Lemma contains_spec q s :
  contains q s = true <-> exists a b, s = a ++ q ++ b.
Proof.
  induction s as [|c s IH].
  - simpl. rewrite orb_false_r, startswith_spec. split.
    + intros [t Ht]. exists [], t. exact Ht.
    + intros (a & b & Hab). destruct a as [|x a]; [|discriminate].
      exists b. exact Hab.
  - rewrite contains_cons, orb_true_iff, startswith_spec, IH. split.
    + intros [[t Ht] | (a & b & ->)].
      * exists [], t. exact Ht.
      * exists (c :: a), b. reflexivity.
    + intros (a & b & Hab). destruct a as [|x a].
      * left. exists b. exact Hab.
      * right. injection Hab as -> ->. exists a, b. reflexivity.
Qed.

Lemma contains_drop q n s :
  contains q s = false -> contains q (drop n s) = false.
Proof.
  revert s. induction n as [|n IH]; intros s Hs; [rewrite drop_0; exact Hs|].
  destruct s as [|c s]; [exact Hs|]. simpl.
  rewrite contains_cons in Hs. apply orb_false_iff in Hs as [_ Hs]. auto.
Qed.

(** An occurrence in [a ++ t] that is not in [t] starts inside [a]. *)
Lemma contains_app_inv q a t :
  q <> [] ->
  contains q (a ++ t) = true ->
  (exists c q', q = c :: q' /\ In c a) \/ contains q t = true.
Proof.
  intros Hq. induction a as [|x a IH]; simpl; intros H; [right; exact H|].
  apply orb_true_iff in H as [H | H].
  - left. destruct q as [|c q']; [congruence|].
    simpl in H. apply andb_true_iff in H as [Hc _].
    apply N.eqb_eq in Hc as ->. exists x, q'. simpl. auto.
  - destruct (IH H) as [(c & q' & -> & Hin) | Ht]; [left | right; exact Ht].
    exists c, q'. simpl. auto.
Qed.

Lemma replace_from_skip p r k s :
  replace_from p r k s = replace_from p r 0 (drop k s).
Proof.
  revert k. induction s as [|c s IH]; intros [|k]; try reflexivity.
  simpl. apply IH.
Qed.

Lemma replace_nil p r : p <> [] -> replace p r [] = [].
Proof. destruct p; [congruence | reflexivity]. Qed.

Lemma replace_cons p r c s :
  p <> [] ->
  replace p r (c :: s) =
  if startswith p (c :: s)
  then r ++ replace p r (drop (length p) (c :: s))
  else c :: replace p r s.
Proof.
  intros Hp. destruct p as [|x p]; [congruence|].
  unfold replace. cbn [replace_from].
  destruct (startswith (x :: p) (c :: s)); [|reflexivity].
  rewrite replace_from_skip. simpl. rewrite Nat.sub_0_r. reflexivity.
Qed.

(** Replacing a pattern that does not occur changes nothing. *)
Lemma replace_absent p r s :
  p <> [] -> contains p s = false -> replace p r s = s.
Proof.
  intros Hp. induction s as [|c s IH]; intros Hs.
  - apply replace_nil, Hp.
  - rewrite contains_cons in Hs. apply orb_false_iff in Hs as [H1 H2].
    rewrite replace_cons, H1, IH by assumption. reflexivity.
Qed.

End StringFacts.

(** ** Replacement does not create occurrences of an unrelated pattern *)

Section Inert.
Variables p r q : pystr.
Hypothesis p_nonempty : p <> [].
Hypothesis q_inert : inert q r = true.

Lemma inert_nonempty : q <> [].
Proof using q_inert. destruct q; [discriminate q_inert | discriminate]. Qed.

Lemma inert_first c q' : q = c :: q' -> ~ In c r.
Proof using q_inert.
  intros -> Hin. unfold inert in q_inert.
  destruct r as [|r0 [|r1 r']]; try discriminate.
  apply andb_true_iff in q_inert as [H _].
  apply andb_true_iff in H as [H _].
  apply negb_true_iff in H.
  assert (existsb (N.eqb c) (r0 :: r1 :: r') = true) as Hex; [|congruence].
  apply existsb_exists. exists c. split; [exact Hin | apply N.eqb_refl].
Qed.

(** No occurrence of [q] can run from the text before a copy of [r]
    into that copy. *)
Lemma inert_no_straddle a q2 t :
  q = a ++ q2 -> q2 <> [] -> startswith q2 (r ++ t) = true -> False.
Proof using q_inert.
  intros Hq Hne Hst. unfold inert in q_inert.
  destruct q as [|c0 q0] eqn:Eq; [discriminate|].
  destruct r as [|r0 [|r1 r']]; try discriminate.
  apply andb_true_iff in q_inert as [H Hpair].
  apply andb_true_iff in H as [_ Hlast].
  apply negb_true_iff in Hlast, Hpair.
  destruct q2 as [|x q3]; [congruence|].
  simpl in Hst. apply andb_true_iff in Hst as [Hx Hst].
  apply N.eqb_eq in Hx as ->.
  destruct q3 as [|y q4].
  - unfold endswith in Hlast. rewrite Hq, rev_app_distr in Hlast.
    simpl in Hlast. rewrite N.eqb_refl in Hlast. discriminate.
  - simpl in Hst. apply andb_true_iff in Hst as [Hy _].
    apply N.eqb_eq in Hy as ->.
    assert (contains [r0; r1] (c0 :: q0) = true) as Hc; [|congruence].
    apply contains_spec. exists a, q4. rewrite Hq. reflexivity.
Qed.

(** A prefix of the output that reaches into the replaced part is a
    prefix of the input. *)
Lemma replace_prefix_inert s :
  forall a, startswith q (a ++ replace p r s) = true ->
            startswith q (a ++ s) = true.
Proof using p_nonempty q_inert.
  induction s as [s IH] using (induction_ltof1 _ (@length _)).
  unfold ltof in IH. intros a Ha. destruct s as [|c s'].
  - rewrite replace_nil in Ha by assumption. exact Ha.
  - rewrite replace_cons in Ha by assumption.
    destruct (startswith p (c :: s')) eqn:Hm.
    + apply startswith_app_inv in Ha as [Ha | (q2 & Hq & Hne & Hst)].
      * apply startswith_weaken, Ha.
      * exfalso. eapply inert_no_straddle; eauto.
    + replace (a ++ c :: replace p r s') with ((a ++ [c]) ++ replace p r s')
        in Ha by (rewrite <- app_assoc; reflexivity).
      apply IH in Ha; [|simpl; lia].
      rewrite <- app_assoc in Ha. exact Ha.
Qed.

(** After [replace p r], [q] does not occur, when it is [p] itself or
    did not occur before. *)
Lemma replace_clean s :
  q = p \/ contains q s = false ->
  contains q (replace p r s) = false.
Proof using p_nonempty q_inert.
  induction s as [s IH] using (induction_ltof1 _ (@length _)).
  unfold ltof in IH. intros Hs. destruct s as [|c s'].
  - rewrite replace_nil by assumption. apply contains_nil, inert_nonempty.
  - rewrite replace_cons by assumption.
    destruct (startswith p (c :: s')) eqn:Hm.
    + destruct (contains q (r ++ _)) eqn:Hc; [|reflexivity].
      apply contains_app_inv in Hc as [(c0 & q' & Hq & Hin) | Hc];
        [| |apply inert_nonempty].
      * exfalso. eapply inert_first; eauto.
      * rewrite IH in Hc; [discriminate| |].
        -- rewrite length_drop. clear -p_nonempty.
           destruct p; [congruence|]. simpl. lia.
        -- destruct Hs as [Hs | Hs]; [left; exact Hs|].
           right. apply contains_drop, Hs.
    + rewrite contains_cons. apply orb_false_iff. split.
      * destruct (startswith q (c :: replace p r s')) eqn:Hst; [|reflexivity].
        apply (replace_prefix_inert s' [c]) in Hst. simpl in Hst.
        destruct Hs as [-> | Hs]; [congruence|].
        rewrite contains_cons in Hs. apply orb_false_iff in Hs as [Hs _].
        congruence.
      * apply IH; [simpl; lia|].
        destruct Hs as [Hs | Hs]; [left; exact Hs|].
        right. rewrite contains_cons in Hs.
        apply orb_false_iff in Hs as [_ Hs]. exact Hs.
Qed.

End Inert.

(** ** C4: product-name normalization is a fixed point after one pass *)

Lemma normalize_text_clean (text : pystr) :
  contains (u "GitHub Copilot") (normalize_text text) = false /\
  contains (u "Visual Studio Code") (normalize_text text) = false /\
  contains (u "VS Code") (normalize_text text) = false /\
  contains (u "VSCode") (normalize_text text) = false.
Proof.
  unfold normalize_text.
  set (s1 := replace (u "GitHub Copilot") (u "Cursor AI") text).
  set (s2 := replace (u "Visual Studio Code") (u "Cursor") s1).
  set (s3 := replace (u "VS Code") (u "Cursor") s2).
  assert (contains (u "GitHub Copilot") s1 = false) as H11
    by (apply replace_clean; [discriminate | reflexivity | left; reflexivity]).
  assert (contains (u "GitHub Copilot") s2 = false) as H12
    by (apply replace_clean; [discriminate | reflexivity | right; exact H11]).
  assert (contains (u "GitHub Copilot") s3 = false) as H13
    by (apply replace_clean; [discriminate | reflexivity | right; exact H12]).
  assert (contains (u "Visual Studio Code") s2 = false) as H22
    by (apply replace_clean; [discriminate | reflexivity | left; reflexivity]).
  assert (contains (u "Visual Studio Code") s3 = false) as H23
    by (apply replace_clean; [discriminate | reflexivity | right; exact H22]).
  assert (contains (u "VS Code") s3 = false) as H33
    by (apply replace_clean; [discriminate | reflexivity | left; reflexivity]).
  repeat split; apply replace_clean;
    solve [discriminate | reflexivity | left; reflexivity | right; assumption].
Qed.

(** A text without any of the four product names is left as it is. *)
Lemma normalize_text_fixed (text : pystr) :
  contains (u "GitHub Copilot") text = false ->
  contains (u "Visual Studio Code") text = false ->
  contains (u "VS Code") text = false ->
  contains (u "VSCode") text = false ->
  normalize_text text = text.
Proof.
  intros H1 H2 H3 H4. unfold normalize_text.
  rewrite (replace_absent (u "GitHub Copilot")) by (discriminate || assumption).
  rewrite (replace_absent (u "Visual Studio Code")) by (discriminate || assumption).
  rewrite (replace_absent (u "VS Code")) by (discriminate || assumption).
  apply replace_absent; (discriminate || assumption).
Qed.

(** C4. For every input string, applying the product-name normalization
    (GitHub Copilot to Cursor AI; Visual Studio Code, VS Code and VSCode
    to Cursor) twice gives the same result as applying it once: on
    already normalized text no substitution is performed. *)
Theorem C4_normalize_text_idempotent (text : pystr) :
  Prompts.normalize_text (Prompts.normalize_text text)
  = Prompts.normalize_text text.
Proof.
  unfold Prompts.normalize_text.
  destruct (normalize_text_clean text) as (H1 & H2 & H3 & H4).
  apply normalize_text_fixed; assumption.
Qed.

(** ** The line searches *)

Section FindLine.
Variable test : pystr -> bool.

Lemma find_line_none (index : nat) (lines : list pystr) :
  (forall j l, lines !! j = Some l -> test l = false) ->
  find_line test index lines = None.
Proof.
  revert index. induction lines as [|line rest IH]; intros index Hall.
  - reflexivity.
  - simpl. rewrite (Hall O line) by reflexivity.
    apply IH. intros j l Hj. apply (Hall (S j) l). exact Hj.
Qed.

Lemma find_line_first (index k : nat) (lines : list pystr) (l : pystr) :
  lines !! k = Some l -> test l = true ->
  (forall j l', (j < k)%nat -> lines !! j = Some l' -> test l' = false) ->
  find_line test index lines = Some (index + k)%nat.
Proof.
  revert index k. induction lines as [|line rest IH]; intros index k Hk Ht Hbefore.
  - discriminate.
  - destruct k as [|k]; simpl in *.
    + injection Hk as ->. rewrite Ht. f_equal. lia.
    + rewrite (Hbefore O line) by (reflexivity || lia).
      rewrite (IH (S index) k); [f_equal; lia | exact Hk | exact Ht |].
      intros j l' Hj Hl'. apply (Hbefore (S j) l'); [lia | exact Hl'].
Qed.

Lemma find_from_none (start : nat) (lines : list pystr) :
  (forall j l, (start <= j)%nat -> lines !! j = Some l -> test l = false) ->
  find_from test start lines = None.
Proof.
  intros Hall. apply find_line_none. intros j l Hj.
  rewrite lookup_drop in Hj. apply (Hall (start + j)%nat); [lia | exact Hj].
Qed.

(** What a successful search found. *)
Lemma find_line_some (index i : nat) (lines : list pystr) :
  find_line test index lines = Some i ->
  exists k l, i = (index + k)%nat /\ lines !! k = Some l /\ test l = true /\
    forall j l', (j < k)%nat -> lines !! j = Some l' -> test l' = false.
Proof.
  revert index. induction lines as [|line rest IH]; intros index Hf.
  - discriminate.
  - simpl in Hf. destruct (test line) eqn:Ht.
    + injection Hf as <-. exists O, line. repeat split; [lia | exact Ht |].
      intros j l' Hj. lia.
    + destruct (IH _ Hf) as (k & l & -> & Hk & Hl & Hb).
      exists (S k), l. repeat split; [lia | exact Hk | exact Hl |].
      intros [|j] l' Hj Hl'; simpl in Hl'.
      * injection Hl' as <-. exact Ht.
      * apply (Hb j l'); [lia | exact Hl'].
Qed.

End FindLine.

Lemma stripped_is_true marker line :
  stripped_is marker line = true <-> strip line = marker.
Proof. apply eqb_eq. Qed.

Lemma stripped_is_false marker line :
  strip line <> marker -> stripped_is marker line = false.
Proof.
  intros Hne. destruct (stripped_is marker line) eqn:E; [|reflexivity].
  apply stripped_is_true in E. contradiction.
Qed.

(** ** C2: unterminated fences and unterminated frontmatter *)

Lemma extract_block_unterminated marker warning text i line :
  splitlines text !! i = Some line ->
  startswith marker (strip line) = true ->
  (forall j l, (j < i)%nat -> splitlines text !! j = Some l ->
               startswith marker (strip l) = false) ->
  (forall j l, (i < j)%nat -> splitlines text !! j = Some l ->
               strip l <> u "```") ->
  extract_block marker warning text = (text, [warning]).
Proof.
  intros Hi Hopen Hfirst Hnoclose. unfold extract_block, find_from at 1.
  rewrite drop_0.
  rewrite (find_line_first _ 0 i _ line Hi Hopen Hfirst). simpl.
  rewrite find_from_none; [reflexivity|].
  intros j l Hj Hl. apply stripped_is_false. apply (Hnoclose j l); [lia | exact Hl].
Qed.

Lemma parse_frontmatter_unterminated literal_eval text first rest :
  splitlines text = first :: rest ->
  strip first = u "---" ->
  (forall l, In l rest -> strip l <> u "---") ->
  parse_frontmatter literal_eval text
  = Return (∅, text, [u "Frontmatter start found without closing '---'."]).
Proof.
  intros Hlines Hfirst Hrest. unfold parse_frontmatter. rewrite Hlines.
  apply stripped_is_true in Hfirst. rewrite Hfirst. simpl negb. cbv iota.
  rewrite find_from_none; [reflexivity|].
  intros [|j] l Hj Hl; [lia|]. simpl in Hl.
  apply stripped_is_false, Hrest.
  apply list_elem_of_In, list_elem_of_lookup. eauto.
Qed.

(** C2. Soft-failure fallback, for every input text.  If an opening
    fence line is found (line [i] is the first whose stripped text starts
    with the fence marker) and no later line is a closing fence, fence
    extraction returns the original full text with exactly one warning,
    in the agent tool and in the prompt tool.  If the first line is a
    frontmatter delimiter and no later line is one, frontmatter parsing
    returns empty metadata, the full text as body and exactly one
    warning.  Both are returned results: nothing is raised. *)
Theorem C2_soft_failure_fallback (literal_eval : pystr -> outcome pyval)
    (text : pystr) :
  (forall i line marker,
      splitlines text !! i = Some line ->
      startswith marker (strip line) = true ->
      (forall j l, (j < i)%nat -> splitlines text !! j = Some l ->
                   startswith marker (strip l) = false) ->
      (forall j l, (i < j)%nat -> splitlines text !! j = Some l ->
                   strip l <> u "```") ->
      (marker = u "```chatagent" ->
       Agents.extract_chatagent_block text
       = (text, [u "Chatagent block start found without closing ```."])) /\
      (marker = u "```prompt" ->
       Prompts.extract_prompt_block text
       = (text, [u "Prompt block start found without closing ```."]))) /\
  (forall first rest,
      splitlines text = first :: rest ->
      strip first = u "---" ->
      (forall l, In l rest -> strip l <> u "---") ->
      parse_frontmatter literal_eval text
      = Return (∅, text, [u "Frontmatter start found without closing '---'."])).
Proof.
  split.
  - intros i line marker Hi Hopen Hfirst Hnoclose.
    split; intros ->; eapply extract_block_unterminated; eauto.
  - intros first rest. apply parse_frontmatter_unterminated.
Qed.

(** ** Lines and joins *)

Lemma splitlines_nonempty (s : pystr) : s <> [] -> splitlines s <> [].
Proof.
  destruct s as [|c s]; [congruence|]. intros _. simpl.
  destruct (is_linebreak c).
  - destruct (c =? CR); [destruct s as [|d s]; [|destruct (d =? LF)]|];
      discriminate.
  - destruct (splitlines s); discriminate.
Qed.

(** No line of [splitlines] holds a line terminator. *)
Lemma splitlines_no_linebreak (s : pystr) :
  Forall no_linebreak (splitlines s).
Proof.
  induction s as [s IH] using (induction_ltof1 _ (@length _)).
  unfold ltof in IH. destruct s as [|c s]; [constructor|].
  simpl. destruct (is_linebreak c) eqn:Hc.
  - destruct (c =? CR).
    + destruct s as [|d s]; [repeat constructor|].
      destruct (d =? LF); constructor; try constructor; apply IH; simpl; lia.
    + constructor; [constructor | apply IH; simpl; lia].
  - specialize (IH s ltac:(simpl; lia)).
    destruct (splitlines s) as [|l ls]; [repeat constructor; exact Hc|].
    inversion IH; subst. constructor; [constructor; assumption | assumption].
Qed.

Lemma splitlines_app_lf (a b : pystr) :
  no_linebreak a -> splitlines (a ++ LF :: b) = a :: splitlines b.
Proof.
  induction 1 as [|c a Hc Ha IH]; [reflexivity|].
  simpl. rewrite Hc. simpl in IH. rewrite IH. reflexivity.
Qed.

Lemma join_cons_head (sep l : pystr) (c : char) (ls : list pystr) :
  join sep ((c :: l) :: ls) = c :: join sep (l :: ls).
Proof. destruct ls; reflexivity. Qed.

Lemma join_cons_cons (sep x y : pystr) (rest : list pystr) :
  join sep (x :: y :: rest) = x ++ sep ++ join sep (y :: rest).
Proof. reflexivity. Qed.

(** A text whose only line terminators are line feeds is recovered from
    its lines. *)
Lemma join_splitlines_lf (b : pystr) :
  Forall (fun c => is_linebreak c = true -> c = LF) b ->
  join [LF] (splitlines (b ++ [LF])) = b.
Proof.
  induction 1 as [|c b Hc Hb IH]; [reflexivity|].
  assert (splitlines (b ++ [LF]) <> []) as Hne
    by (apply splitlines_nonempty; destruct b; discriminate).
  cbn [app splitlines]. destruct (is_linebreak c) eqn:E.
  - rewrite (Hc eq_refl). cbn [N.eqb Pos.eqb LF CR].
    destruct (splitlines (b ++ [LF])) as [|l ls] eqn:El; [congruence|].
    rewrite join_cons_cons, IH. reflexivity.
  - destruct (splitlines (b ++ [LF])) as [|l ls] eqn:El; [congruence|].
    rewrite join_cons_head, IH. reflexivity.
Qed.

Lemma endswith_cons (x : char) (c : char) (s : pystr) :
  s <> [] -> endswith [x] (c :: s) = endswith [x] s.
Proof.
  intros Hs. unfold endswith. simpl.
  destruct (rev s) as [|y t] eqn:E.
  - apply (f_equal (@rev _)) in E. rewrite rev_involutive in E. contradiction.
  - reflexivity.
Qed.

Lemma endswith_app (x : char) (a s : pystr) :
  s <> [] -> endswith [x] (a ++ s) = endswith [x] s.
Proof.
  intros Hs. induction a as [|c a IH]; [reflexivity|].
  simpl. rewrite endswith_cons; [exact IH | destruct a, s; simpl; congruence].
Qed.

(** A join of terminator-free lines ends with a line feed only when its
    last line is empty. *)
Lemma join_ends_with_lf (lines : list pystr) :
  Forall no_linebreak lines ->
  last lines <> Some [] ->
  endswith [LF] (join [LF] lines) = false.
Proof.
  induction 1 as [|l ls Hl Hls IH]; intros Hlast; [reflexivity|].
  destruct ls as [|l2 ls].
  - simpl in *. destruct l as [|c l] using rev_ind; [congruence|].
    unfold endswith. rewrite rev_app_distr. cbn [rev app startswith].
    apply Forall_app in Hl as [_ Hc]. inversion Hc as [|? ? Hx _]; subst.
    rewrite andb_true_r. apply N.eqb_neq. intros <-. discriminate Hx.
  - rewrite join_cons_cons, app_assoc. 
    destruct (join [LF] (l2 :: ls)) as [|y t] eqn:Ej.
    + exfalso. destruct ls as [|l3 ls]; simpl in Ej.
      * subst l2. apply Hlast. reflexivity.
      * destruct l2; discriminate.
    + rewrite endswith_app by discriminate. apply IH.
      intros Hl2. apply Hlast. rewrite last_cons, Hl2. reflexivity.
Qed.

(** ** The frontmatter block *)

Lemma split_once_some (sep s : pystr) :
  contains sep s = true -> exists a b, split_once sep s = Some (a, b).
Proof.
  induction s as [|c s IH]; simpl.
  - rewrite orb_false_r. intros ->. eauto.
  - destruct (startswith sep (c :: s)); [eauto|]. simpl. intros Hc.
    destruct (IH Hc) as (a & b & ->). eauto.
Qed.

Section Block.
Variable literal_eval : pystr -> outcome pyval.

Lemma parse_yaml_value_returns raw :
  raises_only_caught literal_eval ->
  exists v, parse_yaml_value literal_eval raw = Return v.
Proof.
  intros Hsafe. unfold parse_yaml_value.
  destruct (is_empty _); [eauto|].
  destruct (_ && _).
  - destruct (literal_eval (strip raw)) as [v|e] eqn:E; [eauto|].
    rewrite (Hsafe _ _ E). eauto.
  - destruct (_ || _); eauto.
Qed.

Lemma parse_lines_returns lines :
  raises_only_caught literal_eval ->
  forall metadata warnings, exists metadata' warnings',
    parse_lines literal_eval lines metadata warnings
    = Return (metadata', warnings').
Proof.
  intros Hsafe. induction lines as [|line rest IH]; intros metadata warnings.
  - simpl. eauto.
  - simpl. destruct (_ || _); [apply IH|].
    destruct (contains (u ":") line) eqn:Hc; simpl; [|apply IH].
    destruct (split_once_some _ _ Hc) as (key & raw & ->).
    destruct (parse_yaml_value_returns raw Hsafe) as [v ->]. simpl. apply IH.
Qed.

(** With a delimiter on the first line and the next one [k] lines
    further, the lines between are parsed as metadata and the lines after
    are the body. *)
Lemma parse_frontmatter_block text first rest k closing :
  splitlines text = first :: rest ->
  strip first = u "---" ->
  rest !! k = Some closing ->
  strip closing = u "---" ->
  (forall j l, (j < k)%nat -> rest !! j = Some l -> strip l <> u "---") ->
  parse_frontmatter literal_eval text =
  '(metadata, warnings) ← parse_lines literal_eval (take k rest) ∅ [];
  Return (metadata, join [LF] (drop (S k) rest), warnings).
Proof.
  intros Hlines Hfirst Hk Hclosing Hbefore.
  unfold parse_frontmatter. rewrite Hlines.
  apply stripped_is_true in Hfirst, Hclosing. rewrite Hfirst.
  cbn [negb]. unfold find_from.
  change (drop 1 (first :: rest)) with rest.
  rewrite (find_line_first _ 1 k rest closing Hk Hclosing).
  - replace (1 + k - 1)%nat with k by lia.
    replace (1 + k + 1)%nat with (S (S k)) by lia. reflexivity.
  - intros j l Hj Hl. apply stripped_is_false. eauto.
Qed.

End Block.

(** ** C10: line endings of the returned body *)

(** C10, as the code has it.  For every input text in which a complete
    frontmatter block is found (a delimiter on the first line, the next
    delimiter [k] lines further), the body that [parse_frontmatter]
    returns is the lines after the closing delimiter joined by single
    line feeds; it is returned whenever [literal_eval] raises nothing
    but syntax and value errors.  Those lines hold no line terminator,
    so CR LF and the other terminators of the input are replaced by LF
    and the final terminator is dropped.  The body ends with a line feed
    only when its last line is empty. *)
Theorem C10_body_is_rejoined_lines (literal_eval : pystr -> outcome pyval)
    (text first closing : pystr) (rest : list pystr) (k : nat) :
  splitlines text = first :: rest ->
  strip first = u "---" ->
  rest !! k = Some closing ->
  strip closing = u "---" ->
  (forall j l, (j < k)%nat -> rest !! j = Some l -> strip l <> u "---") ->
  let body_lines := drop (S k) rest in
  (forall metadata body warnings,
      parse_frontmatter literal_eval text = Return (metadata, body, warnings) ->
      body = join [LF] body_lines) /\
  (raises_only_caught literal_eval ->
   exists metadata warnings,
     parse_frontmatter literal_eval text
     = Return (metadata, join [LF] body_lines, warnings)) /\
  Forall no_linebreak body_lines /\
  (last body_lines <> Some [] ->
   endswith [LF] (join [LF] body_lines) = false).
Proof.
  intros Hlines Hfirst Hk Hclosing Hbefore body_lines.
  pose proof (parse_frontmatter_block literal_eval _ _ _ _ _
                Hlines Hfirst Hk Hclosing Hbefore) as Hpf.
  assert (Forall no_linebreak body_lines) as Hnb.
  { unfold body_lines. apply Forall_drop.
    pose proof (splitlines_no_linebreak text) as Hall.
    rewrite Hlines in Hall. inversion Hall; assumption. }
  repeat split.
  - intros metadata body warnings Hret. rewrite Hpf in Hret.
    destruct (parse_lines _ _ _ _) as [[md ws]|e]; [|discriminate].
    simpl in Hret. injection Hret as _ <- _. reflexivity.
  - intros Hsafe.
    destruct (parse_lines_returns literal_eval (take k rest) Hsafe ∅ [])
      as (md & ws & Hpl).
    exists md, ws. rewrite Hpf, Hpl. reflexivity.
  - exact Hnb.
  - apply join_ends_with_lf, Hnb.
Qed.

(** The body of a text that ends with a blank line ends with a line
    feed: here the returned body is [Body] followed by LF. *)
Lemma C10_body_ends_with_newline :
  parse_frontmatter LiteralFragment.literal_eval
    (u "---" ++ [LF] ++ u "---" ++ [LF] ++ u "Body" ++ [LF; LF])
  = Return (∅, u "Body" ++ [LF], []) /\
  endswith [LF] (u "Body" ++ [LF]) = true.
Proof. split; vm_compute; reflexivity. Qed.

(** ** C6: the shape of an emitted rule *)

Lemma join_terminated (sep : pystr) (ls : list pystr) :
  ls <> [] -> join sep ls ++ sep = flat_map (fun l => l ++ sep) ls.
Proof.
  induction ls as [|x ls IH]; [congruence|]. intros _.
  destruct ls as [|y ls].
  - simpl. rewrite app_nil_r. reflexivity.
  - rewrite join_cons_cons, <- !app_assoc, IH by discriminate.
    change (flat_map (fun l => l ++ sep) (x :: y :: ls))
      with ((x ++ sep) ++ flat_map (fun l => l ++ sep) (y :: ls)).
    rewrite <- app_assoc. reflexivity.
Qed.

Lemma startswith_app_long (p s t : pystr) :
  (length p <= length s)%nat -> startswith p (s ++ t) = startswith p s.
Proof.
  revert s. induction p as [|x p IH]; intros s Hlen; [reflexivity|].
  destruct s as [|y s]; simpl in *; [lia|].
  rewrite IH by lia. reflexivity.
Qed.

Lemma endswith_app_long (p a s : pystr) :
  (length p <= length s)%nat -> endswith p (a ++ s) = endswith p s.
Proof.
  intros Hlen. unfold endswith. rewrite rev_app_distr.
  apply startswith_app_long. rewrite !length_rev. exact Hlen.
Qed.

Lemma glob_lines_terminated (globs : list pystr) :
  flat_map (fun l => l ++ [LF])
    (List.map (fun glob => u "  - " ++ yaml_quote glob) globs)
  = flat_map (fun glob => u "  - " ++ yaml_quote glob ++ [LF]) globs.
Proof.
  induction globs as [|g gs IH]; [reflexivity|].
  cbn [List.map flat_map]. rewrite IH, <- !app_assoc. reflexivity.
Qed.

Lemma build_rule_content_shape description globs always_apply body :
  Instructions.build_rule_content description globs always_apply body =
  u "---" ++ [LF] ++
  u "description: " ++ yaml_quote (normalize_text description) ++ [LF] ++
  match globs with
  | [] => u "globs: []" ++ [LF]
  | _ => u "globs:" ++ [LF] ++
         flat_map (fun glob => u "  - " ++ yaml_quote glob ++ [LF]) globs
  end ++
  u "alwaysApply: " ++ (if always_apply then u "true" else u "false") ++ [LF] ++
  u "---" ++ [LF] ++
  (if is_empty (emitted_body body) then [] else emitted_body body ++ [LF]).
Proof.
  unfold Instructions.build_rule_content. fold (emitted_body body).
  set (tail_part := if is_empty (emitted_body body) then []
                    else emitted_body body ++ [LF]).
  match goal with
  | |- (if _ then join [LF] ?ls ++ _ ++ _ ++ _ else _) = _ =>
      transitivity ((join [LF] ls ++ [LF]) ++ tail_part)
  end.
  { unfold tail_part. destruct (is_empty (emitted_body body)); simpl negb; cbv iota.
    - rewrite app_nil_r. reflexivity.
    - rewrite <- !app_assoc. reflexivity. }
  rewrite join_terminated by discriminate.
  rewrite !flat_map_app. destruct globs as [|g gs].
  - cbn [is_empty negb flat_map]. rewrite <- !app_assoc. reflexivity.
  - cbn [is_empty negb].
    change (u "globs:" :: ?l) with ([u "globs:"] ++ l).
    rewrite flat_map_app, glob_lines_terminated.
    cbn [flat_map]. rewrite !app_nil_r, <- !app_assoc. reflexivity.
Qed.

Lemma endswith_last (c x : char) (a : pystr) :
  endswith [c] (a ++ [x]) = (c =? x).
Proof.
  unfold endswith. rewrite rev_app_distr. cbn [rev app startswith].
  apply andb_true_r.
Qed.

Lemma rule_text_end (x b : pystr) :
  let text := ((x ++ u "---") ++ [LF]) ++
              (if is_empty b then [] else b ++ [LF]) in
  endswith [LF] text = true /\
  (endswith [LF] b = false -> endswith [LF; LF] text = false).
Proof.
  destruct b as [|c b _] using rev_ind; cbn zeta.
  - cbn [is_empty]. rewrite app_nil_r. split; [apply endswith_last|].
    intros _. replace ((x ++ u "---") ++ [LF]) with ((x ++ u "--") ++ u "-" ++ [LF]).
    + rewrite endswith_app_long by (simpl; lia). reflexivity.
    + rewrite <- !app_assoc. reflexivity.
  - replace (is_empty (b ++ [c])) with false by (destruct b; reflexivity).
    split; [rewrite !app_assoc; apply endswith_last|].
    rewrite endswith_last. intros Hc.
    replace (((x ++ u "---") ++ [LF]) ++ (b ++ [c]) ++ [LF])
      with ((((x ++ u "---") ++ [LF]) ++ b) ++ [c; LF])
      by (rewrite <- !app_assoc; reflexivity).
    rewrite endswith_app_long by (simpl; lia).
    unfold endswith. cbn [rev app startswith]. rewrite Hc.
    apply andb_false_r.
Qed.

(** C6, as the code has it.  For every description, glob list,
    alwaysApply flag and body, the emitted rule text is a delimiter line,
    a description line whose value is the normalized description quoted
    with backslash escaped before double quote, a globs block
    ([globs: []] when the list is empty, otherwise one quoted glob per
    entry), an [alwaysApply: true|false] line, a closing delimiter line,
    then the normalized body with at most one leading line feed stripped,
    followed, when it is not empty, by one line feed.  The agent emitter
    is the same with no globs and alwaysApply false.  The output always
    ends with a line feed, and with exactly one when the emitted body
    does not itself end with a line feed. *)
Theorem C6_rule_output_shape (description : pystr) (globs : list pystr)
    (always_apply : bool) (body : pystr) :
  let output :=
    Instructions.build_rule_content description globs always_apply body in
  output =
    u "---" ++ [LF] ++
    u "description: " ++ yaml_quote (normalize_text description) ++ [LF] ++
    match globs with
    | [] => u "globs: []" ++ [LF]
    | _ => u "globs:" ++ [LF] ++
           flat_map (fun glob => u "  - " ++ yaml_quote glob ++ [LF]) globs
    end ++
    u "alwaysApply: " ++ (if always_apply then u "true" else u "false") ++
    [LF] ++ u "---" ++ [LF] ++
    (if is_empty (emitted_body body) then [] else emitted_body body ++ [LF]) /\
  (forall value,
      yaml_quote value
      = DQ ++ replace DQ (BSL ++ DQ) (replace BSL (BSL ++ BSL) value) ++ DQ) /\
  (normalize_text body = LF :: emitted_body body \/
   (emitted_body body = normalize_text body /\
    startswith [LF] (normalize_text body) = false)) /\
  Agents.build_rule_content description body
  = Instructions.build_rule_content description [] false body /\
  endswith [LF] output = true /\
  (endswith [LF] (emitted_body body) = false ->
   endswith [LF; LF] output = false).
Proof.
  intros output. unfold output. rewrite build_rule_content_shape.
  split; [reflexivity|]. split; [reflexivity|]. split.
  { unfold emitted_body. destruct (normalize_text body) as [|c s]; [right; auto|].
    cbn [startswith]. rewrite andb_true_r. destruct (N.eqb_spec LF c) as [<-|Hc].
    - left. reflexivity.
    - right. auto. }
  split; [reflexivity|].
  rewrite !app_assoc. apply rule_text_end.
Qed.

(** A body that ends with a line feed is emitted with that line feed and
    one more: the rule text then ends with two line feeds. *)
Lemma C6_two_trailing_newlines :
  Instructions.build_rule_content (u "d") [] false (u "x" ++ [LF])
  = u "---" ++ [LF] ++ u "description: " ++ DQ ++ u "d" ++ DQ ++ [LF] ++
    u "globs: []" ++ [LF] ++ u "alwaysApply: false" ++ [LF] ++
    u "---" ++ [LF] ++ u "x" ++ [LF; LF] /\
  endswith [LF; LF]
    (Instructions.build_rule_content (u "d") [] false (u "x" ++ [LF])) = true.
Proof. split; vm_compute; reflexivity. Qed.

(** ** C1: frontmatter values *)

(** C1, as the code has it.  For every frontmatter line value, with
    [value] its stripped text.  A bracketed value on which literal
    evaluation succeeds parses to the evaluated literal, so the value
    written with quoted elements, ['a', 'b', 'c'], parses to the
    sequence of a, b, c.  A bracketed value on which literal evaluation
    raises a syntax or value error is returned as the raw bracketed
    string; this is the case of [a, b, c], whose bare names are not
    literals.  A value wrapped in matching double (or single) quotes
    parses to the string between them, and any other non-empty value to
    itself. *)
Theorem C1_parse_yaml_value (literal_eval : pystr -> outcome pyval)
    (raw_value : pystr) :
  let value := strip raw_value in
  (forall literal,
      bracketed value = true -> literal_eval value = Return literal ->
      parse_yaml_value literal_eval raw_value = Return literal) /\
  (forall e,
      bracketed value = true -> literal_eval value = Raise e ->
      is_SyntaxError_or_ValueError e = true ->
      parse_yaml_value literal_eval raw_value = Return (VStr value)) /\
  (value = u "['a', 'b', 'c']" ->
   literal_eval value = Return (VList [VStr (u "a"); VStr (u "b"); VStr (u "c")]) ->
   parse_yaml_value literal_eval raw_value
   = Return (VList [VStr (u "a"); VStr (u "b"); VStr (u "c")])) /\
  (value = u "[a, b, c]" ->
   literal_eval value = Raise ValueError ->
   parse_yaml_value literal_eval raw_value = Return (VStr (u "[a, b, c]"))) /\
  (forall q inner,
      q = 34 \/ q = 39 -> value = [q] ++ inner ++ [q] ->
      parse_yaml_value literal_eval raw_value = Return (VStr inner)) /\
  (value <> [] -> bracketed value = false -> quoted value = false ->
   parse_yaml_value literal_eval raw_value = Return (VStr value)).
Proof.
  intros value. unfold parse_yaml_value. fold value.
  fold (bracketed value). fold (quoted value).
  assert (forall literal,
      bracketed value = true -> literal_eval value = Return literal ->
      (if is_empty value then Return (VStr [])
       else if bracketed value
            then match literal_eval value with
                 | Return literal => Return literal
                 | Raise e => if is_SyntaxError_or_ValueError e
                              then Return (VStr value) else Raise e
                 end
            else if quoted value then Return (VStr (slice_1_m1 value))
                 else Return (VStr value)) = Return literal) as Hok.
  { intros literal Hb Hl. rewrite Hb, Hl.
    destruct value; [discriminate Hb | reflexivity]. }
  assert (forall e,
      bracketed value = true -> literal_eval value = Raise e ->
      is_SyntaxError_or_ValueError e = true ->
      (if is_empty value then Return (VStr [])
       else if bracketed value
            then match literal_eval value with
                 | Return literal => Return literal
                 | Raise e => if is_SyntaxError_or_ValueError e
                              then Return (VStr value) else Raise e
                 end
            else if quoted value then Return (VStr (slice_1_m1 value))
                 else Return (VStr value)) = Return (VStr value)) as Hraw.
  { intros e Hb Hl He. rewrite Hb, Hl, He.
    destruct value; [discriminate Hb | reflexivity]. }
  split; [exact Hok|]. split; [exact Hraw|]. split; [|split; [|split]].
  - intros Hv Hl. apply Hok; [rewrite Hv; reflexivity | exact Hl].
  - intros Hv Hl. rewrite <- Hv. apply (Hraw ValueError);
      [rewrite Hv; reflexivity | exact Hl | reflexivity].
  - intros q inner Hq Hv. rewrite Hv.
    assert (bracketed ([q] ++ inner ++ [q]) = false) as ->.
    { unfold bracketed. destruct Hq as [-> | ->]; reflexivity. }
    assert (quoted ([q] ++ inner ++ [q]) = true) as ->.
    { unfold quoted.
      change ([q] ++ inner ++ [q]) with ((q :: inner) ++ [q]).
      unfold DQ. change (u "'") with [39]. rewrite !endswith_last.
      destruct Hq as [-> | ->]; reflexivity. }
    cbn [is_empty app]. unfold slice_1_m1. cbn [tail].
    rewrite removelast_last. reflexivity.
  - intros Hne Hb Hq. rewrite Hb, Hq.
    destruct value; [congruence | reflexivity].
Qed.

(** With the bare names of [a, b, c] the literal evaluation raises a
    value error and the value stays the string it was, not a sequence. *)
Lemma C1_bare_names_stay_text :
  parse_yaml_value LiteralFragment.literal_eval (u " [a, b, c]")
  = Return (VStr (u "[a, b, c]")) /\
  parse_yaml_value LiteralFragment.literal_eval (u " [a, b, c]")
  <> Return (VList [VStr (u "a"); VStr (u "b"); VStr (u "c")]).
Proof. split; [vm_compute; reflexivity | vm_compute; discriminate]. Qed.

(** The four values of the claim, evaluated. *)
Lemma C1_parse_yaml_value_witness :
  parse_yaml_value LiteralFragment.literal_eval (u " ['a', 'b', 'c']")
  = Return (VList [VStr (u "a"); VStr (u "b"); VStr (u "c")]) /\
  parse_yaml_value LiteralFragment.literal_eval (u " [a, b, c]")
  = Return (VStr (u "[a, b, c]")) /\
  parse_yaml_value LiteralFragment.literal_eval (u " " ++ DQ ++ u "quoted" ++ DQ)
  = Return (VStr (u "quoted")) /\
  parse_yaml_value LiteralFragment.literal_eval (u " foo") = Return (VStr (u "foo")).
Proof.
  split; [|split; [|split]].
  - destruct (C1_parse_yaml_value LiteralFragment.literal_eval
                (u " ['a', 'b', 'c']")) as (_ & _ & Hlist & _).
    apply Hlist; vm_compute; reflexivity.
  - destruct (C1_parse_yaml_value LiteralFragment.literal_eval
                (u " [a, b, c]")) as (_ & _ & _ & Hnames & _).
    apply Hnames; vm_compute; reflexivity.
  - destruct (C1_parse_yaml_value LiteralFragment.literal_eval
                (u " " ++ DQ ++ u "quoted" ++ DQ)) as (_ & _ & _ & _ & Hq & _).
    apply (Hq 34 (u "quoted")); [left; reflexivity | vm_compute; reflexivity].
  - destruct (C1_parse_yaml_value LiteralFragment.literal_eval
                (u " foo")) as (_ & _ & _ & _ & _ & Hbare).
    apply Hbare; [vm_compute; discriminate | vm_compute; reflexivity ..].
Defined.

(** An agent file with an unterminated fence and a text with an
    unterminated frontmatter block. *)
Lemma C2_soft_failure_fallback_witness :
  Agents.extract_chatagent_block (u "```chatagent" ++ [LF] ++ u "---" ++ [LF] ++ u "x")
  = (u "```chatagent" ++ [LF] ++ u "---" ++ [LF] ++ u "x",
     [u "Chatagent block start found without closing ```."]) /\
  parse_frontmatter LiteralFragment.literal_eval (u "---" ++ [LF] ++ u "name: x")
  = Return (∅, u "---" ++ [LF] ++ u "name: x",
            [u "Frontmatter start found without closing '---'."]).
Proof.
  split.
  - destruct (C2_soft_failure_fallback LiteralFragment.literal_eval
                (u "```chatagent" ++ [LF] ++ u "---" ++ [LF] ++ u "x"))
      as [Hfence _].
    apply (Hfence 0%nat (u "```chatagent") (u "```chatagent")).
    + vm_compute. reflexivity.
    + vm_compute. reflexivity.
    + intros j l Hj. lia.
    + intros [|[|[|j]]] l Hj Hl; vm_compute in Hl; try discriminate; try lia;
        injection Hl as <-; vm_compute; discriminate.
    + reflexivity.
  - destruct (C2_soft_failure_fallback LiteralFragment.literal_eval
                (u "---" ++ [LF] ++ u "name: x")) as [_ Hfm].
    apply (Hfm (u "---") [u "name: x"]).
    + vm_compute. reflexivity.
    + vm_compute. reflexivity.
    + intros l [<- | []]. vm_compute. discriminate.
Defined.

(** A text with CR LF terminators after the block. *)
Lemma C10_body_is_rejoined_lines_witness :
  parse_frontmatter LiteralFragment.literal_eval
    (u "---" ++ [LF] ++ u "a: b" ++ [LF] ++ u "---" ++ [CR; LF] ++
     u "x" ++ [CR; LF] ++ u "y" ++ [CR; LF])
  = Return (<[u "a" := VStr (u "b")]> ∅, u "x" ++ [LF] ++ u "y", []) /\
  endswith [LF] (u "x" ++ [LF] ++ u "y") = false.
Proof.
  destruct (C10_body_is_rejoined_lines LiteralFragment.literal_eval
              (u "---" ++ [LF] ++ u "a: b" ++ [LF] ++ u "---" ++ [CR; LF] ++
               u "x" ++ [CR; LF] ++ u "y" ++ [CR; LF])
              (u "---") (u "---") [u "a: b"; u "---"; u "x"; u "y"] 1%nat)
    as (Hbody & _ & _ & Hend).
  - vm_compute. reflexivity.
  - vm_compute. reflexivity.
  - vm_compute. reflexivity.
  - vm_compute. reflexivity.
  - intros [|j] l Hj Hl; [|lia]. injection Hl as <-. vm_compute. discriminate.
  - split.
    + vm_compute. reflexivity.
    + apply Hend. vm_compute. discriminate.
Defined.

(** ** Stripping and splitting *)

Lemma lstrip_head (s : pystr) :
  lstrip s = [] \/ exists c t, lstrip s = c :: t /\ is_space c = false.
Proof.
  induction s as [|c s IH]; [left; reflexivity|].
  simpl. destruct (is_space c) eqn:E; [exact IH|]. right. eauto.
Qed.

Lemma rstrip_cons_nonspace (c : char) (s : pystr) :
  is_space c = false -> rstrip (c :: s) = c :: rstrip s.
Proof. intros E. simpl. rewrite E. destruct (rstrip s); reflexivity. Qed.

Lemma rstrip_idem (s : pystr) : rstrip (rstrip s) = rstrip s.
Proof.
  induction s as [|c s IH]; [reflexivity|].
  cbn [rstrip]. destruct (rstrip s) as [|y r] eqn:E.
  - destruct (is_space c) eqn:Ec; [reflexivity|]. simpl. rewrite Ec. reflexivity.
  - cbn [rstrip] in IH |- *. cbn [rstrip]. rewrite IH. reflexivity.
Qed.

(** A stripped text is not changed by stripping. *)
Lemma strip_idem (s : pystr) : strip (strip s) = strip s.
Proof.
  unfold strip. destruct (lstrip_head s) as [-> | (c & t & -> & Hc)];
    [reflexivity|].
  rewrite rstrip_cons_nonspace by exact Hc. cbn [lstrip]. rewrite Hc.
  rewrite <- rstrip_cons_nonspace by exact Hc. apply rstrip_idem.
Qed.

Lemma split_char_cons (x c : char) (s : pystr) :
  split [x] (c :: s) =
  if x =? c then [] :: split [x] s
  else match split [x] s with
       | [] => [[c]]
       | l :: ls => (c :: l) :: ls
       end.
Proof.
  unfold split. cbn [split_from startswith length Nat.sub].
  rewrite andb_true_r. reflexivity.
Qed.

Lemma split_nonempty (x : char) (s : pystr) : split [x] s <> [].
Proof.
  destruct s as [|c s]; [discriminate|]. rewrite split_char_cons.
  destruct (x =? c); [discriminate|]. destruct (split [x] s); discriminate.
Qed.

(** The parts of a split on one code point lie between its occurrences:
    joined by it they give the text back, and none of them holds it. *)
Lemma join_split_char (x : char) (s : pystr) : join [x] (split [x] s) = s.
Proof.
  induction s as [|c s IH]; [reflexivity|].
  rewrite split_char_cons. pose proof (split_nonempty x s) as Hne.
  destruct (split [x] s) as [|l ls]; [congruence|].
  destruct (N.eqb_spec x c) as [->|Hc].
  - rewrite join_cons_cons, IH. reflexivity.
  - rewrite join_cons_head, IH. reflexivity.
Qed.

Lemma split_char_parts (x : char) (s : pystr) :
  Forall (fun part => ~ In x part) (split [x] s).
Proof.
  induction s as [|c s IH]; [repeat constructor; intros []|].
  rewrite split_char_cons. destruct (N.eqb_spec x c) as [->|Hc].
  - constructor; [intros [] | exact IH].
  - destruct (split [x] s) as [|l ls]; [repeat constructor; intros [?|[]]; congruence|].
    inversion IH; subst. constructor; [|assumption].
    intros [?|?]; [congruence | contradiction].
Qed.

(** ** C5: applyTo normalization in the instruction dialect *)

Lemma normalize_globs_trimmed repr_str apply_to g :
  In g (Instructions.normalize_globs repr_str apply_to) ->
  g <> [] /\ strip g = g.
Proof.
  unfold Instructions.normalize_globs. destruct apply_to as [v|]; [|intros []].
  intros Hin. apply filter_In in Hin as [Hin Hne].
  split; [destruct g; [discriminate Hne | discriminate]|].
  destruct v; apply in_map_iff in Hin as (x & <- & _); apply strip_idem.
Qed.

Lemma always_apply_of_spec globs :
  Instructions.always_apply_of globs = true <->
  In (u "*") globs \/ In (u "**") globs.
Proof.
  unfold Instructions.always_apply_of. rewrite existsb_exists. split.
  - intros (g & Hin & Hg). apply orb_true_iff in Hg as [Hg | Hg];
      apply eqb_eq in Hg; subst g; auto.
  - intros [Hin | Hin]; eexists; (split; [exact Hin|]);
      rewrite !eqb_refl; auto using orb_true_r.
Qed.


(** ** C9: a description that is not a string, in the prompt dialect *)

Lemma parse_lines_warnings literal_eval lines :
  forall metadata warnings metadata' warnings',
    no_description_warning warnings ->
    parse_lines literal_eval lines metadata warnings
    = Return (metadata', warnings') ->
    no_description_warning warnings'.
Proof.
  induction lines as [|line rest IH]; intros metadata warnings metadata' warnings' Hw.
  - simpl. intros [= _ <-]. exact Hw.
  - simpl. destruct (_ || _); [apply IH; exact Hw|].
    destruct (contains (u ":") line); simpl.
    + destruct (split_once (u ":") line) as [[key raw]|]; [|discriminate].
      destruct (parse_yaml_value literal_eval raw); [|discriminate].
      simpl. apply IH. exact Hw.
    + apply IH. apply Forall_app. split; [exact Hw|].
      constructor; [discriminate | constructor].
Qed.

Lemma parse_frontmatter_warnings literal_eval text metadata body warnings :
  parse_frontmatter literal_eval text = Return (metadata, body, warnings) ->
  no_description_warning warnings.
Proof.
  unfold parse_frontmatter. destruct (splitlines text) as [|first rest].
  { intros [= _ _ <-]. constructor. }
  destruct (negb _). { intros [= _ _ <-]. constructor. }
  destruct (find_from _ _ _) as [end_index|].
  - destruct (parse_lines _ _ _ _) as [[md ws]|e] eqn:E; [|discriminate].
    simpl. intros [= _ _ <-].
    eapply parse_lines_warnings; [|exact E]. constructor.
  - intros [= _ _ <-]. constructor; [discriminate | constructor].
Qed.

Lemma extract_prompt_block_warnings text prompt_text warnings :
  Prompts.extract_prompt_block text = (prompt_text, warnings) ->
  no_description_warning warnings.
Proof.
  unfold Prompts.extract_prompt_block, extract_block.
  destruct (find_from _ 0 _) as [start_index|]; [|intros [= _ <-]; constructor].
  destruct (find_from _ _ _); intros [= _ <-]; [constructor|].
  constructor; [discriminate | constructor].
Qed.

Lemma count_description_warning warnings :
  no_description_warning warnings ->
  length (List.filter (PyStr.eqb Prompts.description_warning)
            (warnings ++ [Prompts.description_warning])) = 1%nat.
Proof.
  induction 1 as [|w ws Hw _ IH]; [reflexivity|].
  cbn [app List.filter].
  destruct (PyStr.eqb Prompts.description_warning w) eqn:E; [|exact IH].
  apply eqb_eq in E. congruence.
Qed.

(** C9. Prompt dialect, for every source file whose metadata holds a
    description that is not a string (a list, for one): the warnings of
    the conversion are those of the fence extraction and of the
    frontmatter followed by the warning for this condition, which occurs
    exactly once among them; and the text written is the one emitted for
    an absent description, in which the heading is followed by an empty
    line: no description line and no text taken from the file name in its
    place. *)
Theorem C9_non_string_description {W : Type} `{FileSystem W}
    (literal_eval : pystr -> outcome pyval) (title : pystr -> pystr)
    (w : W) (source_path : Path) (destination_dir : pystr)
    (text prompt_text body : pystr) (prompt_warnings parse_warnings : list pystr)
    (metadata : gmap pystr pyval) (v : pyval) :
  read_text w source_path = Return text ->
  Prompts.extract_prompt_block text = (prompt_text, prompt_warnings) ->
  parse_frontmatter literal_eval prompt_text
  = Return (metadata, body, parse_warnings) ->
  metadata !! u "description" = Some v ->
  is_str v = false ->
  let warnings :=
    (prompt_warnings ++ parse_warnings) ++ [Prompts.description_warning] in
  let filename_stem := replace (u ".prompt") [] (stem source_path) in
  let destination_path :=
    mkPath destination_dir
      (replace (u ".prompt.md") (u ".md") (name source_path)) in
  let content := Prompts.build_command_content title None body filename_stem in
  Prompts.convert_file literal_eval title w source_path destination_dir =
    match write_text w destination_path content with
    | (w', Raise (OSError msg)) =>
        (w', Return (mkResult source_path (Some destination_path) false
                       warnings (Some msg)))
    | (w', Raise e) => (w', Raise e)
    | (w', Return _) =>
        (w', Return (mkResult source_path (Some destination_path) true
                       warnings None))
    end /\
  length (List.filter (PyStr.eqb Prompts.description_warning) warnings) = 1%nat /\
  content =
    rstrip
      (u "# " ++
       title (replace (u "_") (u " ") (replace (u "-") (u " ") filename_stem)) ++
       [LF] ++ [LF] ++
       u "Use any text after the command as additional context." ++ [LF] ++
       (if is_empty (Prompts.normalize_text body) then []
        else [LF] ++ Prompts.normalize_text body)) ++ [LF].
Proof.
  intros Hread Hextract Hparse Hdesc Hv warnings filename_stem
    destination_path content.
  split; [|split].
  - unfold Prompts.convert_file. rewrite Hread, Hextract, Hparse, Hdesc.
    destruct v; [discriminate Hv | reflexivity | reflexivity].
  - apply count_description_warning, Forall_app. split.
    + eapply extract_prompt_block_warnings, Hextract.
    + eapply parse_frontmatter_warnings, Hparse.
  - unfold content, Prompts.build_command_content. cbn [is_empty negb app].
    destruct (Prompts.normalize_text body) as [|c b]; cbn [is_empty negb].
    + cbn [join]. rewrite ?app_nil_r, ?app_nil_l, <- ?app_assoc. reflexivity.
    + cbn [join]. rewrite ?app_nil_r, ?app_nil_l, <- ?app_assoc. reflexivity.
Qed.

(** A prompt file whose description is a list. *)
Lemma C9_non_string_description_witness :
  let w := MemoryFS.mkWorld
    [(mkPath (u "prompts") (u "fix-bug.prompt.md"),
      Return (u "---" ++ [LF] ++ u "description: ['a', 'b']" ++ [LF] ++
              u "---" ++ [LF] ++ u "Body"))] [] [] in
  exists w',
    Prompts.convert_file LiteralFragment.literal_eval MemoryFS.title w
      (mkPath (u "prompts") (u "fix-bug.prompt.md")) (u "commands")
    = (w', Return (mkResult (mkPath (u "prompts") (u "fix-bug.prompt.md"))
                     (Some (mkPath (u "commands") (u "fix-bug.md"))) true
                     [Prompts.description_warning] None)) /\
    MemoryFS.written w'
    = [(mkPath (u "commands") (u "fix-bug.md"),
        u "# Fix Bug" ++ [LF; LF] ++
        u "Use any text after the command as additional context." ++
        [LF; LF] ++ u "Body" ++ [LF])].
Proof.
  intros w. eexists.
  destruct (C9_non_string_description LiteralFragment.literal_eval
              MemoryFS.title w
              (mkPath (u "prompts") (u "fix-bug.prompt.md")) (u "commands")
              (u "---" ++ [LF] ++ u "description: ['a', 'b']" ++ [LF] ++
               u "---" ++ [LF] ++ u "Body")
              (u "---" ++ [LF] ++ u "description: ['a', 'b']" ++ [LF] ++
               u "---" ++ [LF] ++ u "Body")
              (u "Body") [] []
              (<[u "description" := VList [VStr (u "a"); VStr (u "b")]]> ∅)
              (VList [VStr (u "a"); VStr (u "b")]))
    as (Hconv & _ & _).
  - vm_compute. reflexivity.
  - vm_compute. reflexivity.
  - vm_compute. reflexivity.
  - vm_compute. reflexivity.
  - reflexivity.
  - rewrite Hconv. split; vm_compute; reflexivity.
Defined.

(** ** The batch driver *)

Section Batch.
Context {W : Type} `{FileSystem W}.
Variable convert_file : W -> Path -> pystr -> W * outcome ConversionResult.
Variable kind : pystr.
Variable destination_dir : pystr.

Lemma report_failed result t out :
  failed (fst (report result t out))
  = (failed t + if success result then 0 else 1)%nat.
Proof.
  unfold report. destruct (success result); simpl; lia.
Qed.

Lemma convert_each_failed sources :
  forall w t out,
    match convert_each convert_file destination_dir w t out sources with
    | (_, _, Return t') =>
        Forall (fun o => exists result, o = Return result)
          (outcomes convert_file destination_dir w sources) /\
        (failed t' <> 0%nat <->
         failed t <> 0%nat \/
         Exists not_converted (outcomes convert_file destination_dir w sources))
    | (_, _, Raise e) =>
        Exists not_converted (outcomes convert_file destination_dir w sources)
    end.
Proof.
  induction sources as [|source rest IH]; intros w t out.
  - simpl. split; [constructor|]. rewrite Exists_nil. tauto.
  - simpl. destruct (convert_file w source destination_dir) as [w' [result|e]].
    + pose proof (report_failed result t out) as Hrep.
      destruct (report result t out) as [t1 out1]. simpl in Hrep.
      specialize (IH w' t1 out1).
      destruct (convert_each _ _ w' t1 out1 rest) as [[w2 out2] [t2|e]].
      * destruct IH as [Hall IH]. split; [constructor; eauto|].
        rewrite IH, Exists_cons, Hrep. unfold not_converted at 2.
        destruct (success result); split; intros; try lia;
          intuition (try lia; try discriminate; auto).
      * apply Exists_cons_tl, IH.
    + apply Exists_cons_hd. exact I.
Qed.

End Batch.

(** ** C8: the exit status of a batch *)

(** C8. For every batch, whatever the conversion function of the tool:
    the exit status is non-zero if and only if at least one file was not
    converted; it is zero when there is no candidate file and when every
    file converted successfully.  Warnings play no part in it.  The
    [main] of the agent tool and of the instruction tool, called without
    an argument, run this batch on the files of their source
    directory. *)
Theorem C8_exit_status {W : Type} `{FileSystem W}
    (convert_file : W -> Path -> pystr -> W * outcome ConversionResult)
    (kind destination_dir : pystr) (w : W) (out : list pystr)
    (sources : list Path) :
  let status :=
    exit_status (run_batch convert_file kind destination_dir w out sources).2 in
  (status <> 0%Z <->
   Exists not_converted (outcomes convert_file destination_dir w sources)) /\
  (sources = [] -> status = 0%Z) /\
  (Forall (fun o => exists result, o = Return result /\ success result = true)
     (outcomes convert_file destination_dir w sources) ->
   status = 0%Z) /\
  (forall literal_eval repo_root w1 r,
      mkdir w (repo_root ++ u "/cursor/rules") = (w1, Return r) ->
      Agents.main literal_eval repo_root w None
      = run_batch (Agents.convert_file literal_eval) (u ".agent.md")
          (repo_root ++ u "/cursor/rules") w1 []
          (sorted_glob w1 (repo_root ++ u "/copilot/agents") (u "*.agent.md"))) /\
  (forall literal_eval repr_str repo_root w1 r,
      mkdir w (repo_root ++ u "/cursor/rules") = (w1, Return r) ->
      Instructions.main literal_eval repr_str repo_root w None
      = run_batch (Instructions.convert_file literal_eval repr_str)
          (u ".instructions.md") (repo_root ++ u "/cursor/rules") w1 []
          (sorted_glob w1 (repo_root ++ u "/copilot/instructions")
             (u "*.instructions.md"))).
Proof.
  intros status.
  assert (status <> 0%Z <->
          Exists not_converted (outcomes convert_file destination_dir w sources))
    as Hiff.
  { unfold status, run_batch. destruct sources as [|source rest].
    - simpl. rewrite Exists_nil. tauto.
    - pose proof (convert_each_failed convert_file destination_dir
                    (source :: rest) w (mkTotals 0 0 0) out) as Hce.
      destruct (convert_each _ _ _ _ _ _) as [[w' out'] [t|e]]; simpl.
      + destruct Hce as [_ Hce]. cbn [failed] in Hce.
        destruct (Nat.eqb_spec (failed t) 0) as [Hz|Hnz].
        * split; [congruence|]. intros Hex. exfalso.
          apply Hce; [right; exact Hex | exact Hz].
        * split; [|discriminate]. intros _.
          apply Hce in Hnz as [Hnz|Hex]; [congruence | exact Hex].
      + split; [intros _; exact Hce | discriminate]. }
  split; [exact Hiff|]. split; [|split; [|split]].
  - intros ->. reflexivity.
  - intros Hall. destruct (Z.eq_dec status 0%Z) as [Hz|Hnz]; [exact Hz|].
    exfalso. apply Hiff in Hnz. apply Exists_exists in Hnz as (o & Hin & Hno).
    rewrite Forall_forall in Hall.
    destruct (Hall o Hin) as (result & -> & Hok).
    simpl in Hno. congruence.
  - intros literal_eval repo_root w1 r Hmk.
    unfold Agents.main, Shared.main. rewrite Hmk. reflexivity.
  - intros literal_eval repr_str repo_root w1 r Hmk.
    unfold Instructions.main, Shared.main. rewrite Hmk. reflexivity.
Qed.

(** ** C7: exceptions and the batch loop *)

(** An exception of [literal_eval] that is neither a syntax nor a value
    error (a [TypeError] for an unhashable set element or dictionary key,
    a [MemoryError], a [RecursionError]) leaves [parse_yaml_value]. *)
Lemma parse_yaml_value_uncaught literal_eval raw_value e :
  bracketed (strip raw_value) = true ->
  literal_eval (strip raw_value) = Raise e ->
  is_SyntaxError_or_ValueError e = false ->
  parse_yaml_value literal_eval raw_value = Raise e.
Proof.
  intros Hb Hl He. unfold parse_yaml_value. fold (bracketed (strip raw_value)).
  rewrite Hb, Hl, He. destruct (strip raw_value); [discriminate Hb | reflexivity].
Qed.

(** What [convert_file] does with an exception of [read_text]: an
    [OSError] becomes a failed result, any other exception is raised
    again. *)
Lemma agents_convert_file_read_raises {W : Type} `{FileSystem W}
    literal_eval (w : W) source_path destination_dir e :
  read_text w source_path = Raise e ->
  Agents.convert_file literal_eval w source_path destination_dir =
  match e with
  | OSError msg => (w, Return (mkResult source_path None false [] (Some msg)))
  | _ => (w, Raise e)
  end.
Proof.
  intros Hread. unfold Agents.convert_file. rewrite Hread.
  destruct e; reflexivity.
Qed.

(** C7 at a file that is not UTF-8.  Reading it raises
    [UnicodeDecodeError], which is not an [OSError]: [convert_file] makes
    no result of it, the exception leaves the batch loop and [main], no
    summary is printed and the second file is not converted. *)
Theorem C7_decode_error_leaves_batch :
  Agents.main LiteralFragment.literal_eval (u "repo")
    two_agents_one_undecodable None
  = (two_agents_one_undecodable, [], Raise UnicodeDecodeError) /\
  outcomes (Agents.convert_file LiteralFragment.literal_eval)
    (u "repo/cursor/rules") two_agents_one_undecodable
    [mkPath (u "repo/copilot/agents") (u "a.agent.md");
     mkPath (u "repo/copilot/agents") (u "b.agent.md")]
  = [Raise UnicodeDecodeError].
Proof. split; vm_compute; reflexivity. Qed.

(** ** C3: emitting a rule and parsing it again *)

Lemma Forall_replace (P : char -> Prop) (p r s : pystr) :
  p <> [] -> Forall P r -> Forall P s -> Forall P (replace p r s).
Proof.
  intros Hp Hr. induction s as [s IH] using (induction_ltof1 _ (@length _)).
  unfold ltof in IH. intros Hs. destruct s as [|c s].
  - rewrite replace_nil by exact Hp. constructor.
  - rewrite replace_cons by exact Hp. destruct (startswith p (c :: s)).
    + apply Forall_app. split; [exact Hr|]. apply IH.
      * rewrite length_drop. destruct p; [congruence|]. simpl. lia.
      * apply Forall_drop, Hs.
    + inversion Hs; subst. constructor; [assumption|].
      apply IH; [simpl; lia | assumption].
Qed.

Lemma contains_char_absent (c : char) (s : pystr) :
  ~ In c s -> contains [c] s = false.
Proof.
  induction s as [|x s IH]; intros Hin; [reflexivity|].
  rewrite contains_cons. cbn [startswith]. rewrite andb_true_r.
  apply orb_false_iff. split.
  - apply N.eqb_neq. intros ->. apply Hin. left. reflexivity.
  - apply IH. intros H. apply Hin. right. exact H.
Qed.

Lemma rstrip_app_nonspace (a : pystr) (c : char) :
  is_space c = false -> rstrip (a ++ [c]) = a ++ [c].
Proof.
  intros Hc. induction a as [|x a IH]; simpl; [rewrite Hc; reflexivity|].
  rewrite IH. destruct (a ++ [c]) eqn:E; [destruct a; discriminate|].
  reflexivity.
Qed.

Lemma escaped_no_linebreak value :
  no_linebreak value -> no_linebreak (escaped value).
Proof.
  intros Hv. unfold escaped.
  apply Forall_replace; [discriminate | repeat constructor |].
  apply Forall_replace; [discriminate | repeat constructor | exact Hv].
Qed.

Lemma escaped_plain value :
  ~ In 92 value -> ~ In 34 value -> escaped value = value.
Proof.
  intros Hb Hq. unfold escaped.
  rewrite (replace_absent BSL) by (discriminate || apply contains_char_absent, Hb).
  apply replace_absent; [discriminate | apply contains_char_absent, Hq].
Qed.

Lemma parse_yaml_value_double_quoted literal_eval inner :
  parse_yaml_value literal_eval (u " " ++ DQ ++ inner ++ DQ)
  = Return (VStr inner).
Proof.
  unfold parse_yaml_value.
  assert (strip (u " " ++ DQ ++ inner ++ DQ) = (34 :: inner) ++ [34]) as ->.
  { unfold strip. change (lstrip (u " " ++ DQ ++ inner ++ DQ))
      with ((34 :: inner) ++ [34]).
    apply rstrip_app_nonspace. reflexivity. }
  cbn [app is_empty startswith]. rewrite andb_false_l.
  change (34 :: inner ++ [34]) with ((34 :: inner) ++ [34]).
  unfold DQ. rewrite endswith_last. cbn [app startswith].
  change ((34 =? 34) && true && (34 =? 34) || _) with true. cbv iota.
  unfold slice_1_m1. cbn [tail]. rewrite removelast_last. reflexivity.
Qed.

(** One pass of the loop over the frontmatter lines, on a line with a
    key and a value. *)
Lemma parse_lines_pair literal_eval line rest metadata warnings key raw v :
  is_empty (strip line) || startswith (u "#") (strip line) = false ->
  contains (u ":") line = true ->
  split_once (u ":") line = Some (key, raw) ->
  parse_yaml_value literal_eval raw = Return v ->
  parse_lines literal_eval (line :: rest) metadata warnings
  = parse_lines literal_eval rest (<[strip key := v]> metadata) warnings.
Proof.
  intros Hskip Hcolon Hsplit Hvalue. cbn [parse_lines].
  rewrite Hskip, Hcolon, Hsplit, Hvalue. reflexivity.
Qed.

Section RoundTrip.
Variable literal_eval : pystr -> outcome pyval.
Hypothesis eval_empty_list : literal_eval (u "[]") = Return (VList []).

Variables (description body : pystr) (always_apply : bool).

Lemma emitted_lines :
  no_linebreak (normalize_text description) ->
  splitlines (Instructions.build_rule_content description [] always_apply body)
  = [u "---"; description_line_of description; u "globs: []";
     u "alwaysApply: " ++ flag_text always_apply; u "---"] ++
    splitlines (body_part_of body).
Proof using Type.
  intros Hd. rewrite build_rule_content_shape.
  fold (flag_text always_apply); fold (body_part_of body).
  transitivity
    (splitlines (u "---" ++ LF :: description_line_of description ++
                 LF :: u "globs: []" ++
                 LF :: (u "alwaysApply: " ++ flag_text always_apply) ++
                 LF :: u "---" ++ LF :: body_part_of body)).
  { f_equal; unfold description_line_of; rewrite <- ?app_assoc; reflexivity. }
  rewrite splitlines_app_lf by (repeat constructor).
  rewrite splitlines_app_lf.
  2:{ unfold description_line_of, yaml_quote.
      fold (escaped (normalize_text description)).
      repeat apply Forall_app_2; try (repeat constructor; fail).
      apply escaped_no_linebreak, Hd. }
  rewrite splitlines_app_lf by (repeat constructor).
  rewrite splitlines_app_lf
    by (unfold flag_text; destruct always_apply; repeat constructor).
  rewrite splitlines_app_lf by (repeat constructor).
  reflexivity.
Qed.

Lemma strip_description_line :
  strip (description_line_of description) <> u "---".
Proof using Type.
  unfold description_line_of, strip.
  change (lstrip (u "description: " ++ ?x)) with (u "description: " ++ x).
  change (u "description: " ++ ?x) with (100 :: (u "escription: " ++ x)).
  rewrite rstrip_cons_nonspace by reflexivity. discriminate.
Qed.

Lemma parse_emitted_lines :
  parse_lines literal_eval
    [description_line_of description; u "globs: []";
     u "alwaysApply: " ++ flag_text always_apply] ∅ []
  = Return
      (<[u "alwaysApply" := VStr (flag_text always_apply)]>
         (<[u "globs" := VList []]>
            (<[u "description" := VStr (escaped (normalize_text description))]> ∅)),
       []).
Proof using eval_empty_list.
  rewrite (parse_lines_pair literal_eval (description_line_of description)
             _ _ _ (u "description")
             (u " " ++ DQ ++ escaped (normalize_text description) ++ DQ)
             (VStr (escaped (normalize_text description)))).
  2:{ assert (strip (description_line_of description)
              = 100 :: rstrip (u "escription: " ++
                               yaml_quote (normalize_text description))) as ->;
        [|reflexivity].
      unfold description_line_of, strip.
      change (lstrip (u "description: " ++ ?x)) with (u "description: " ++ x).
      change (u "description: " ++ ?x) with (100 :: (u "escription: " ++ x)).
      apply rstrip_cons_nonspace. reflexivity. }
  2, 3: reflexivity.
  2: apply parse_yaml_value_double_quoted.
  rewrite (parse_lines_pair literal_eval (u "globs: []") _ _ _
             (u "globs") (u " []") (VList [])).
  2, 3, 4: reflexivity.
  2:{ unfold parse_yaml_value. change (strip (u " []")) with (u "[]").
      cbn [is_empty u]. change (startswith (u "[") (u "[]") &&
                                endswith (u "]") (u "[]")) with true.
      cbv iota. rewrite eval_empty_list. reflexivity. }
  unfold flag_text. destruct always_apply.
  - rewrite (parse_lines_pair literal_eval (u "alwaysApply: true") _ _ _
               (u "alwaysApply") (u " true") (VStr (u "true")));
      reflexivity.
  - rewrite (parse_lines_pair literal_eval (u "alwaysApply: false") _ _ _
               (u "alwaysApply") (u " false") (VStr (u "false")));
      reflexivity.
Qed.

End RoundTrip.




(** ** A batch on three files, one of which cannot be opened *)

Lemma C8_exit_status_witness :
  let a := mkPath (u "agents") (u "a.agent.md") in
  let b := mkPath (u "agents") (u "b.agent.md") in
  let c := mkPath (u "agents") (u "c.agent.md") in
  let w := MemoryFS.mkWorld
    [(a, Return (u "Body")); (b, Raise (OSError (u "[Errno 13] Permission denied")));
     (c, Return (u "---" ++ [LF] ++ u "oops" ++ [LF] ++ u "---"))] [] [] in
  let convert := Agents.convert_file LiteralFragment.literal_eval in
  exit_status (run_batch convert (u ".agent.md") (u "rules") w [] [a; b; c]).2
  <> 0%Z /\
  exit_status (run_batch convert (u ".agent.md") (u "rules") w [] [a; c]).2
  = 0%Z /\
  (run_batch convert (u ".agent.md") (u "rules") w [] [a; b; c]).1.2
  = [u "Converted: agents/a.agent.md -> rules/a.mdc";
     u "Failed: agents/b.agent.md ([Errno 13] Permission denied)";
     u "Converted: agents/c.agent.md -> rules/c.mdc";
     u "Warning: agents/c.agent.md: Unrecognized frontmatter line: oops";
     u "Summary: converted=2, failed=1, warnings=1"].
Proof.
  intros a b c w convert. split; [|split].
  - destruct (C8_exit_status convert (u ".agent.md") (u "rules") w [] [a; b; c])
      as (Hiff & _).
    apply Hiff. vm_compute. apply Exists_cons_tl, Exists_cons_hd. reflexivity.
  - destruct (C8_exit_status convert (u ".agent.md") (u "rules") w [] [a; c])
      as (_ & _ & Hall & _).
    apply Hall. vm_compute.
    repeat (constructor; [eexists; split; reflexivity|]). constructor.
  - vm_compute. reflexivity.
Defined.

(* ===================================================================== *)
(** * Further properties of the converters *)
(* ===================================================================== *)

(** ** The frontmatter parser on its edge cases *)

Lemma parse_lines_app literal_eval (a b : list pystr) :
  forall metadata warnings,
    parse_lines literal_eval (a ++ b) metadata warnings =
    '(metadata1, warnings1) ← parse_lines literal_eval a metadata warnings;
    parse_lines literal_eval b metadata1 warnings1.
Proof.
  induction a as [|line a IH]; intros metadata warnings; [reflexivity|].
  cbn [app parse_lines]. destruct (_ || _); [apply IH|].
  destruct (negb _); [apply IH|].
  destruct (split_once (u ":") line) as [[key raw]|]; [|reflexivity].
  destruct (parse_yaml_value literal_eval raw) as [v|e]; [|reflexivity].
  apply IH.
Qed.

Lemma split_once_contains (sep s a b : pystr) :
  split_once sep s = Some (a, b) -> contains sep s = true.
Proof.
  revert a. induction s as [|c s IH]; intros a; simpl.
  - destruct (startswith sep []); [reflexivity | discriminate].
  - destruct (startswith sep (c :: s)); [reflexivity|]. simpl.
    destruct (split_once sep s) as [[a' b']|]; [|discriminate].
    intros [= <- <-]. apply (IH a' eq_refl).
Qed.

Lemma parse_lines_warnings_exact literal_eval lines :
  forall metadata warnings metadata' warnings',
    parse_lines literal_eval lines metadata warnings
    = Return (metadata', warnings') ->
    warnings' =
    warnings ++ List.map unrecognized_warning (List.filter is_unrecognized lines).
Proof.
  induction lines as [|line rest IH]; intros metadata warnings metadata' warnings'.
  - simpl. intros [= _ <-]. rewrite app_nil_r. reflexivity.
  - cbn [parse_lines List.filter]. unfold is_unrecognized, is_entry.
    destruct (_ || _); cbn [negb andb]; [apply IH|].
    destruct (contains (u ":") line); cbn [negb].
    + destruct (split_once (u ":") line) as [[key raw]|]; [|discriminate].
      destruct (parse_yaml_value literal_eval raw) as [v|e]; [|discriminate].
      apply IH.
    + intros Hp. apply IH in Hp. rewrite Hp, <- app_assoc. reflexivity.
Qed.

(** X1. A text whose first line, stripped, is not the delimiter (and so
    the empty text) has no frontmatter: the parser returns empty
    metadata, the whole text as body and no warning, whatever follows. *)
Theorem X1_no_leading_delimiter (literal_eval : pystr -> outcome pyval)
    (text : pystr) :
  (forall first rest, splitlines text = first :: rest -> strip first <> u "---") ->
  parse_frontmatter literal_eval text = Return (∅, text, []).
Proof.
  intros Hfirst. unfold parse_frontmatter.
  destruct (splitlines text) as [|first rest] eqn:E; [reflexivity|].
  rewrite stripped_is_false by (eapply Hfirst; reflexivity). reflexivity.
Qed.

Lemma X1_no_leading_delimiter_witness :
  parse_frontmatter LiteralFragment.literal_eval
    (u "Body" ++ [LF] ++ u "---" ++ [LF] ++ u "a: b" ++ [LF] ++ u "---")
  = Return (∅, u "Body" ++ [LF] ++ u "---" ++ [LF] ++ u "a: b" ++ [LF] ++ u "---",
            []) /\
  parse_frontmatter LiteralFragment.literal_eval [] = Return (∅, [], []).
Proof.
  split; apply X1_no_leading_delimiter; intros first rest Hl;
    vm_compute in Hl; [|discriminate].
  injection Hl as <- _. vm_compute. discriminate.
Defined.

(** X2. In a complete frontmatter block the warnings returned are, in
    order, one "Unrecognized frontmatter line" warning for each line
    between the delimiters that is neither blank nor a comment and holds
    no colon, and nothing else. *)
Theorem X2_block_warnings (literal_eval : pystr -> outcome pyval)
    (text first closing : pystr) (rest : list pystr) (k : nat)
    (metadata : gmap pystr pyval) (body : pystr) (warnings : list pystr) :
  splitlines text = first :: rest ->
  strip first = u "---" ->
  rest !! k = Some closing ->
  strip closing = u "---" ->
  (forall j l, (j < k)%nat -> rest !! j = Some l -> strip l <> u "---") ->
  parse_frontmatter literal_eval text = Return (metadata, body, warnings) ->
  warnings =
  List.map unrecognized_warning (List.filter is_unrecognized (take k rest)).
Proof.
  intros Hlines Hfirst Hk Hclosing Hbefore Hret.
  rewrite (parse_frontmatter_block literal_eval _ _ _ _ _
             Hlines Hfirst Hk Hclosing Hbefore) in Hret.
  destruct (parse_lines _ _ _ _) as [[md ws]|e] eqn:E; [|discriminate].
  simpl in Hret. injection Hret as _ _ <-.
  apply parse_lines_warnings_exact in E. exact E.
Qed.

Lemma X2_block_warnings_witness :
  [u "Unrecognized frontmatter line: oops";
   u "Unrecognized frontmatter line:  - x"]
  = List.map unrecognized_warning
      (List.filter is_unrecognized
         [u "# note: no"; u "oops"; []; u "a: b"; u " - x"]).
Proof.
  apply (X2_block_warnings LiteralFragment.literal_eval
           (u "---" ++ [LF] ++ u "# note: no" ++ [LF] ++ u "oops" ++ [LF; LF] ++
            u "a: b" ++ [LF] ++ u " - x" ++ [LF] ++ u "---" ++ [LF] ++ u "B")
           (u "---") (u "---")
           [u "# note: no"; u "oops"; []; u "a: b"; u " - x"; u "---"; u "B"]
           5%nat (<[u "a" := VStr (u "b")]> ∅) (u "B")).
  - vm_compute. reflexivity.
  - vm_compute. reflexivity.
  - vm_compute. reflexivity.
  - vm_compute. reflexivity.
  - intros j l Hj Hl.
    do 5 (destruct j as [|j]; [injection Hl as <-; vm_compute; discriminate|]).
    lia.
  - vm_compute. reflexivity.
Defined.

(** X3. Blank lines and comment lines of the frontmatter are ignored:
    the loop gives the same result (metadata, warnings or exception) on
    the lines without them. *)
Theorem X3_blank_and_comment_lines_ignored
    (literal_eval : pystr -> outcome pyval) (lines : list pystr)
    (metadata : gmap pystr pyval) (warnings : list pystr) :
  parse_lines literal_eval (List.filter is_entry lines) metadata warnings
  = parse_lines literal_eval lines metadata warnings.
Proof.
  revert metadata warnings.
  induction lines as [|line rest IH]; intros metadata warnings; [reflexivity|].
  cbn [List.filter]. unfold is_entry at 1.
  destruct (is_empty (strip line) || startswith (u "#") (strip line)) eqn:E;
    cbn [negb].
  - rewrite IH. cbn [parse_lines]. rewrite E. reflexivity.
  - cbn [parse_lines]. rewrite E.
    destruct (negb _); [apply IH|].
    destruct (split_once (u ":") line) as [[key raw]|]; [|reflexivity].
    destruct (parse_yaml_value literal_eval raw) as [v|e]; [|reflexivity].
    apply IH.
Qed.

(** X4. Keys are last-write-wins: after any lines, one more entry
    [key: value] sets the stripped key to its parsed value, whatever the
    key held before, leaves every other key and the warnings as they
    were. *)
Theorem X4_last_write_wins (literal_eval : pystr -> outcome pyval)
    (lines : list pystr) (line key raw : pystr) (v : pyval)
    (metadata metadata1 : gmap pystr pyval) (warnings warnings1 : list pystr) :
  is_entry line = true ->
  split_once (u ":") line = Some (key, raw) ->
  parse_yaml_value literal_eval raw = Return v ->
  parse_lines literal_eval lines metadata warnings
  = Return (metadata1, warnings1) ->
  exists metadata2,
    parse_lines literal_eval (lines ++ [line]) metadata warnings
    = Return (metadata2, warnings1) /\
    metadata2 !! strip key = Some v /\
    forall other, other <> strip key -> metadata2 !! other = metadata1 !! other.
Proof.
  intros Hentry Hsplit Hvalue Hlines.
  exists (<[strip key := v]> metadata1). split; [|split].
  - rewrite parse_lines_app, Hlines. cbn [mbind outcome_bind bind].
    rewrite (parse_lines_pair literal_eval line [] _ _ key raw v);
      [reflexivity | | eapply split_once_contains; eassumption
       | assumption | assumption].
    unfold is_entry in Hentry. apply negb_true_iff in Hentry. exact Hentry.
  - apply lookup_insert_eq.
  - intros other Hne. apply lookup_insert_ne. congruence.
Qed.

Lemma X4_last_write_wins_witness :
  exists metadata2,
    parse_lines LiteralFragment.literal_eval
      ([u "name: first"; u "tools: []"] ++ [u " name : 'second'"]) ∅ []
    = Return (metadata2, []) /\
    metadata2 !! u "name" = Some (VStr (u "second")).
Proof.
  destruct (X4_last_write_wins LiteralFragment.literal_eval
              [u "name: first"; u "tools: []"] (u " name : 'second'")
              (u " name ") (u " 'second'") (VStr (u "second")) ∅
              (<[u "tools" := VList []]> (<[u "name" := VStr (u "first")]> ∅))
              [] [])
    as (metadata2 & Hparse & Hkey & _); try (vm_compute; reflexivity).
  exists metadata2. split; [exact Hparse | exact Hkey].
Defined.

Lemma parse_lines_keys_stripped literal_eval lines :
  forall metadata warnings metadata' warnings',
    (forall key, is_Some (metadata !! key) -> strip key = key) ->
    parse_lines literal_eval lines metadata warnings
    = Return (metadata', warnings') ->
    forall key, is_Some (metadata' !! key) -> strip key = key.
Proof.
  induction lines as [|line rest IH]; intros metadata warnings metadata' warnings' Hmd.
  - simpl. intros [= <- _]. exact Hmd.
  - cbn [parse_lines]. destruct (_ || _); [apply IH, Hmd|].
    destruct (negb _); [apply IH, Hmd|].
    destruct (split_once (u ":") line) as [[key raw]|]; [|discriminate].
    destruct (parse_yaml_value literal_eval raw) as [v|e]; [|discriminate].
    apply IH. intros k Hk.
    destruct (decide (k = strip key)) as [->|Hne]; [apply strip_idem|].
    rewrite lookup_insert_ne in Hk by congruence. apply Hmd, Hk.
Qed.

(** X5. Every key of the metadata the parser returns is stripped: it
    has no whitespace at either end. *)
Theorem X5_metadata_keys_stripped (literal_eval : pystr -> outcome pyval)
    (text body : pystr) (metadata : gmap pystr pyval) (warnings : list pystr) :
  parse_frontmatter literal_eval text = Return (metadata, body, warnings) ->
  forall key, is_Some (metadata !! key) -> strip key = key.
Proof.
  unfold parse_frontmatter. destruct (splitlines text) as [|first rest].
  { intros [= <- _ _] key [v Hk]. rewrite lookup_empty in Hk. discriminate. }
  destruct (negb _).
  { intros [= <- _ _] key [v Hk]. rewrite lookup_empty in Hk. discriminate. }
  destruct (find_from _ _ _) as [end_index|].
  - destruct (parse_lines _ _ _ _) as [[md ws]|e] eqn:E; [|discriminate].
    simpl. intros [= <- _ _].
    eapply parse_lines_keys_stripped; [|exact E].
    intros key [v Hk]. rewrite lookup_empty in Hk. discriminate.
  - intros [= <- _ _] key [v Hk]. rewrite lookup_empty in Hk. discriminate.
Qed.

Lemma X5_metadata_keys_stripped_witness :
  strip (u "my key") = u "my key".
Proof.
  apply (X5_metadata_keys_stripped LiteralFragment.literal_eval
           (u "---" ++ [LF] ++ u "  my key  : v" ++ [LF] ++ u "---")
           [] (<[u "my key" := VStr (u "v")]> ∅) []).
  - vm_compute. reflexivity.
  - exists (VStr (u "v")). apply lookup_insert_eq.
Defined.

Lemma parse_frontmatter_returns literal_eval text :
  raises_only_caught literal_eval ->
  exists metadata body warnings,
    parse_frontmatter literal_eval text = Return (metadata, body, warnings).
Proof.
  intros Hsafe. unfold parse_frontmatter.
  destruct (splitlines text) as [|first rest]; [eauto|].
  destruct (negb _); [eauto|].
  destruct (find_from _ _ _) as [end_index|]; [|eauto].
  destruct (parse_lines_returns literal_eval
              (take (end_index - 1) (drop 1 (first :: rest))) Hsafe ∅ [])
    as (md & ws & ->).
  simpl. eauto.
Qed.

(** X6. The parser raises only what literal evaluation raises past the
    [except] clause: when [literal_eval] raises nothing but syntax and
    value errors, every text is parsed to metadata, a body and warnings;
    in particular the unpacking of [line.split(":", 1)] never fails. *)
Theorem X6_parse_frontmatter_returns (literal_eval : pystr -> outcome pyval)
    (text : pystr) :
  raises_only_caught literal_eval ->
  exists metadata body warnings,
    parse_frontmatter literal_eval text = Return (metadata, body, warnings).
Proof. apply parse_frontmatter_returns. Qed.

Lemma fragment_convert_raises :
  forall a e, LiteralFragment.convert a = Raise e -> e = ValueError.
Proof.
  fix IH 1. intros [s|t|id|elts] e; simpl; try discriminate.
  - intros [= <-]. reflexivity.
  - match goal with
    | |- context [mbind _ (?go elts)] => set (convert_all := go)
    end.
    assert (forall l e', convert_all l = Raise e' -> e' = ValueError) as Hall.
    { induction l as [|x l IHl]; intros e'; simpl; [discriminate|].
      destruct (LiteralFragment.convert x) as [v|ex] eqn:Ex; simpl.
      - destruct (convert_all l) as [vs|el] eqn:El; simpl; [discriminate|].
        intros [= <-]. apply IHl. reflexivity.
      - intros [= <-]. apply (IH x). exact Ex. }
    destruct (convert_all elts) as [vs|el] eqn:El; simpl; [discriminate|].
    intros [= <-]. apply (Hall elts). exact El.
Qed.

Lemma fragment_raises_only_caught :
  raises_only_caught LiteralFragment.literal_eval.
Proof.
  intros v e. unfold LiteralFragment.literal_eval, LiteralFragment.literal_eval_fragment.
  destruct (LiteralFragment.lex _ v) as [ts|]; [|intros [= <-]; reflexivity].
  destruct (LiteralFragment.parse _ _ ts) as [a|]; [|intros [= <-]; reflexivity].
  intros H. apply fragment_convert_raises in H. subst e. reflexivity.
Qed.

Lemma X6_parse_frontmatter_returns_witness :
  exists metadata body warnings,
    parse_frontmatter LiteralFragment.literal_eval
      (u "---" ++ [LF] ++ u "tools: [a, 'b']" ++ [LF] ++ u "---" ++ [LF] ++ u "B")
    = Return (metadata, body, warnings).
Proof.
  apply X6_parse_frontmatter_returns. exact fragment_raises_only_caught.
Defined.

(** ** Fence extraction *)

Lemma find_from_first (test : pystr -> bool) (start j : nat)
    (lines : list pystr) (l : pystr) :
  (start <= j)%nat ->
  lines !! j = Some l -> test l = true ->
  (forall m l', (start <= m < j)%nat -> lines !! m = Some l' -> test l' = false) ->
  find_from test start lines = Some j.
Proof.
  intros Hle Hj Ht Hbefore. unfold find_from.
  rewrite (find_line_first test start (j - start) (drop start lines) l).
  - f_equal. lia.
  - rewrite lookup_drop. replace (start + (j - start))%nat with j by lia.
    exact Hj.
  - exact Ht.
  - intros m l' Hm Hl'. rewrite lookup_drop in Hl'.
    apply (Hbefore (start + m)%nat l'); [lia | exact Hl'].
Qed.

(** X7. A text in which no line, stripped, starts with the fence marker
    is returned by the fence extraction as it is, with no warning, in
    the agent tool and in the prompt tool. *)
Theorem X7_no_fence_unchanged (text : pystr) :
  ((forall l, In l (splitlines text) ->
              startswith (u "```chatagent") (strip l) = false) ->
   Agents.extract_chatagent_block text = (text, [])) /\
  ((forall l, In l (splitlines text) ->
              startswith (u "```prompt") (strip l) = false) ->
   Prompts.extract_prompt_block text = (text, [])).
Proof.
  split; intros Hnone;
    unfold Agents.extract_chatagent_block, Prompts.extract_prompt_block,
      extract_block;
    rewrite find_from_none; try reflexivity;
    intros j l _ Hl; apply Hnone, list_elem_of_In, list_elem_of_lookup; eauto.
Qed.

Lemma X7_no_fence_unchanged_witness :
  Agents.extract_chatagent_block (u "```prompt" ++ [LF] ++ u "x" ++ [LF] ++ u "```")
  = (u "```prompt" ++ [LF] ++ u "x" ++ [LF] ++ u "```", []).
Proof.
  apply X7_no_fence_unchanged. intros l Hl. vm_compute in Hl.
  destruct Hl as [<-|[<-|[<-|[]]]]; vm_compute; reflexivity.
Defined.

(** X8. With the first opening fence on line [i] and the first closing
    fence after it on line [j], the fence extraction returns the lines
    strictly between the two, joined by line feeds, and no warning:
    what precedes the opening fence and what follows the closing fence
    is dropped. *)
Theorem X8_fenced_interior (text opening closing : pystr) (i j : nat)
    (marker warning : pystr) :
  splitlines text !! i = Some opening ->
  startswith marker (strip opening) = true ->
  (forall m l, (m < i)%nat -> splitlines text !! m = Some l ->
               startswith marker (strip l) = false) ->
  (i < j)%nat ->
  splitlines text !! j = Some closing ->
  strip closing = u "```" ->
  (forall m l, (i < m < j)%nat -> splitlines text !! m = Some l ->
               strip l <> u "```") ->
  extract_block marker warning text
  = (join [LF] (take (j - S i) (drop (S i) (splitlines text))), []) /\
  (marker = u "```chatagent" ->
   Agents.extract_chatagent_block text
   = (join [LF] (take (j - S i) (drop (S i) (splitlines text))), [])) /\
  (marker = u "```prompt" ->
   Prompts.extract_prompt_block text
   = (join [LF] (take (j - S i) (drop (S i) (splitlines text))), [])).
Proof.
  intros Hi Hopen Hfirst Hij Hj Hclose Hbetween.
  assert (forall warning',
             extract_block marker warning' text
             = (join [LF] (take (j - S i) (drop (S i) (splitlines text))), []))
    as Hgen.
  { intros warning'. unfold extract_block.
    rewrite (find_from_first _ 0 i _ opening); [| lia | exact Hi | exact Hopen |].
    - rewrite (find_from_first _ (i + 1) j _ closing);
        [| lia | exact Hj | apply stripped_is_true, Hclose |].
      + replace (i + 1)%nat with (S i) by lia. reflexivity.
      + intros m l Hm Hl. apply stripped_is_false. apply (Hbetween m l); [lia|exact Hl].
    - intros m l Hm Hl. apply (Hfirst m l); [lia | exact Hl]. }
  split; [apply Hgen|]. split; intros ->; apply Hgen.
Qed.

Lemma X8_fenced_interior_witness :
  Agents.extract_chatagent_block
    (u "intro" ++ [LF] ++ u "  ```chatagent md" ++ [CR; LF] ++ u "---" ++ [LF] ++
     u "Body" ++ [LF] ++ u "``` " ++ [LF] ++ u "after")
  = (u "---" ++ [LF] ++ u "Body", []).
Proof.
  destruct (X8_fenced_interior
    (u "intro" ++ [LF] ++ u "  ```chatagent md" ++ [CR; LF] ++ u "---" ++ [LF] ++
     u "Body" ++ [LF] ++ u "``` " ++ [LF] ++ u "after")
    (u "  ```chatagent md") (u "``` ") 1 4 (u "```chatagent") [])
    as (_ & Hagent & _).
  - vm_compute. reflexivity.
  - vm_compute. reflexivity.
  - intros [|m] l Hm Hl; [|lia]. injection Hl as <-. vm_compute. reflexivity.
  - lia.
  - vm_compute. reflexivity.
  - vm_compute. reflexivity.
  - intros m l Hm Hl.
    destruct m as [|[|[|[|m]]]]; try lia; injection Hl as <-; vm_compute;
      discriminate.
  - rewrite Hagent by reflexivity. vm_compute. reflexivity.
Defined.

(** ** Quoting *)

Lemma replace_char (c : char) (r s : pystr) :
  replace [c] r s = flat_map (fun x => if c =? x then r else [x]) s.
Proof.
  induction s as [|x s IH]; [reflexivity|].
  rewrite replace_cons by discriminate. cbn [startswith flat_map length skipn].
  rewrite andb_true_r, drop_0. destruct (c =? x); rewrite IH; reflexivity.
Qed.

Lemma escaped_flat_map (value : pystr) :
  escaped value = flat_map escape_char value.
Proof.
  unfold escaped, DQ, BSL. rewrite !replace_char.
  induction value as [|x v IH]; [reflexivity|].
  cbn [flat_map]. rewrite flat_map_app, IH. f_equal.
  unfold escape_char. rewrite (N.eqb_sym x 92), (N.eqb_sym x 34).
  destruct (N.eqb_spec 92 x) as [<-|H92]; [reflexivity|].
  cbn [flat_map app]. rewrite app_nil_r. reflexivity.
Qed.

Lemma escape_char_cases (c : char) :
  (c = 92 /\ escape_char c = [92; 92]) \/
  (c = 34 /\ escape_char c = [92; 34]) \/
  (c <> 92 /\ c <> 34 /\ escape_char c = [c]).
Proof.
  unfold escape_char. destruct (N.eqb_spec c 92) as [->|H1]; [auto|].
  destruct (N.eqb_spec c 34) as [->|H2]; auto.
Qed.

Lemma flat_map_escape_injective (a b : pystr) :
  flat_map escape_char a = flat_map escape_char b -> a = b.
Proof.
  revert b. induction a as [|x a IH]; intros [|y b]; cbn [flat_map].
  - reflexivity.
  - destruct (escape_char_cases y) as [[_ ->]|[[_ ->]|(_ & _ & ->)]];
      discriminate.
  - destruct (escape_char_cases x) as [[_ ->]|[[_ ->]|(_ & _ & ->)]];
      discriminate.
  - destruct (escape_char_cases x) as [[-> ->]|[[-> ->]|(Hx1 & Hx2 & ->)]];
      destruct (escape_char_cases y) as [[-> ->]|[[-> ->]|(Hy1 & Hy2 & ->)]];
      cbn [app]; intros H; injection H; intros; subst;
      try congruence; f_equal; apply IH; assumption.
Qed.

(** X9. Quoting loses nothing: two strings with the same quoted form
    are the same string. *)
Theorem X9_yaml_quote_injective (a b : pystr) :
  yaml_quote a = yaml_quote b -> a = b.
Proof.
  unfold yaml_quote. fold (escaped a) (escaped b). intros H.
  apply app_inv_head in H. apply app_inv_tail in H.
  rewrite !escaped_flat_map in H. apply flat_map_escape_injective, H.
Qed.

Lemma X9_yaml_quote_injective_witness :
  u "a" ++ DQ ++ BSL = u "a" ++ [34; 92].
Proof.
  apply X9_yaml_quote_injective. vm_compute. reflexivity.
Defined.

Lemma escaped_length (value : pystr) :
  length (escaped value)
  = (length value + length (List.filter needs_escape value))%nat.
Proof.
  rewrite escaped_flat_map. induction value as [|x v IH]; [reflexivity|].
  cbn [flat_map List.filter]. rewrite length_app, IH.
  destruct (escape_char_cases x) as [[-> ->]|[[-> ->]|(H1 & H2 & ->)]];
    unfold needs_escape; cbn [N.eqb Pos.eqb orb length]; try lia.
  apply N.eqb_neq in H1, H2. rewrite H1, H2. cbn [orb length]. lia.
Qed.

(** X10. A quoted string read back by the value parser is the escaped
    string, not the original: the parser strips the quotes and does not
    undo the escapes.  The original comes back exactly when it holds
    neither a backslash nor a double quote. *)
Theorem X10_quoted_value_read_back (literal_eval : pystr -> outcome pyval)
    (value : pystr) :
  parse_yaml_value literal_eval (u " " ++ yaml_quote value)
  = Return (VStr (escaped value)) /\
  (parse_yaml_value literal_eval (u " " ++ yaml_quote value)
   = Return (VStr value) <->
   ~ In 92 value /\ ~ In 34 value).
Proof.
  assert (parse_yaml_value literal_eval (u " " ++ yaml_quote value)
          = Return (VStr (escaped value))) as Hparse
    by apply parse_yaml_value_double_quoted.
  split; [exact Hparse|]. rewrite Hparse. split.
  - intros [= Heq]. pose proof (escaped_length value) as Hlen.
    rewrite Heq in Hlen.
    assert (List.filter needs_escape value = []) as Hnone
      by (destruct (List.filter _ value); [reflexivity | simpl in Hlen; lia]).
    split; intros Hin;
      (assert (In _ (List.filter needs_escape value)) as Hf
        by (apply filter_In; split; [exact Hin | reflexivity]));
      rewrite Hnone in Hf; exact Hf.
  - intros [Hb Hq]. rewrite escaped_plain by assumption. reflexivity.
Qed.

(** ** Product names *)

Lemma free_of_product_names_spec (text : pystr) :
  free_of_product_names text = true <->
  contains (u "GitHub Copilot") text = false /\
  contains (u "Visual Studio Code") text = false /\
  contains (u "VS Code") text = false /\
  contains (u "VSCode") text = false.
Proof.
  unfold free_of_product_names.
  rewrite !andb_true_iff, !negb_true_iff. tauto.
Qed.

Lemma normalize_text_free (text : pystr) :
  free_of_product_names (normalize_text text) = true.
Proof. apply free_of_product_names_spec, normalize_text_clean. Qed.

(** X11. The normalized text holds none of the four source product
    names any more, whatever the input: also not one put together from
    the pieces around a replacement. *)
Theorem X11_normalized_text_has_no_product_name (text : pystr) :
  free_of_product_names (normalize_text text) = true.
Proof. apply normalize_text_free. Qed.

(** X12. Normalization leaves a text as it is exactly when none of the
    four product names occurs in it. *)
Theorem X12_normalize_text_fixed_points (text : pystr) :
  normalize_text text = text <-> free_of_product_names text = true.
Proof.
  split.
  - intros <-. apply normalize_text_free.
  - intros H. apply free_of_product_names_spec in H as (H1 & H2 & H3 & H4).
    apply normalize_text_fixed; assumption.
Qed.

(** ** The command emitter *)

Lemma rstrip_last (s : pystr) :
  rstrip s = [] \/ exists a c, rstrip s = a ++ [c] /\ is_space c = false.
Proof.
  induction s as [|x s IH]; [left; reflexivity|].
  cbn [rstrip]. destruct IH as [-> | (a & c & -> & Hc)].
  - destruct (is_space x) eqn:E; [left; reflexivity|].
    right. exists [], x. auto.
  - right. exists (x :: a), c. split; [|exact Hc].
    change ((x :: a) ++ [c]) with (x :: (a ++ [c])).
    destruct (a ++ [c]) eqn:E; [destruct a; discriminate | reflexivity].
Qed.

Lemma rstrip_app_mid (a t : pystr) (c : char) :
  is_space c = false -> rstrip (a ++ c :: t) = a ++ c :: rstrip t.
Proof.
  intros Hc. induction a as [|x a IH]; [apply rstrip_cons_nonspace, Hc|].
  cbn [app rstrip]. rewrite IH. destruct a; reflexivity.
Qed.

Lemma instruction_line_end :
  u "Use any text after the command as additional context."
  = u "Use any text after the command as additional context" ++ [46].
Proof. vm_compute. reflexivity. Qed.

(** X13. Every command file starts with the heading [# ] and the
    title, holds the fixed instruction line, and ends with exactly one
    line feed that follows a code point which is not whitespace:
    trailing blank lines and spaces of the body are gone. *)
Theorem X13_command_file_shape (title : pystr -> pystr)
    (description : option pystr) (body filename_stem : pystr) :
  let output :=
    Prompts.build_command_content title description body filename_stem in
  startswith
    (u "# " ++
     title (replace (u "_") (u " ") (replace (u "-") (u " ") filename_stem)))
    output = true /\
  contains instruction_line output = true /\
  exists core c, output = core ++ [c; LF] /\ is_space c = false.
Proof.
  intros output. unfold output, Prompts.build_command_content.
  set (heading := u "# " ++ title _).
  set (d := match description with
            | Some d => if is_empty d then [] else Prompts.normalize_text d
            | None => []
            end).
  set (b := Prompts.normalize_text body).
  set (before := [LF] ++ (if negb (is_empty d) then d ++ [LF] else []) ++ [LF]).
  set (after := [LF] ++ (if negb (is_empty b) then [LF] ++ b else [])).
  assert (join [LF] ([heading] ++ (if negb (is_empty d) then [d] else []) ++
                     [[]; u "Use any text after the command as additional context."; []] ++
                     (if negb (is_empty b) then [b] else []))
          = (heading ++ before) ++
            u "Use any text after the command as additional context" ++
            46 :: after) as ->.
  { rewrite instruction_line_end. unfold before, after.
    destruct (negb (is_empty d)); destruct (negb (is_empty b));
      cbn [app join]; rewrite <- ?app_assoc; cbn [app];
      rewrite <- ?app_assoc; cbn [app]; reflexivity. }
  rewrite app_assoc.
  rewrite (rstrip_app_mid
             ((heading ++ before) ++
              u "Use any text after the command as additional context")
             after 46 eq_refl).
  split; [|split].
  - rewrite <- !app_assoc. apply startswith_app.
  - apply contains_spec. exists (heading ++ before), (rstrip after ++ [LF]).
    unfold instruction_line. rewrite instruction_line_end, <- !app_assoc.
    reflexivity.
  - set (x := (heading ++ before) ++
              u "Use any text after the command as additional context").
    destruct (rstrip_last after) as [-> | (a & c & -> & Hc)].
    + exists x, 46. split; [|reflexivity].
      rewrite <- app_assoc. reflexivity.
    + exists (x ++ 46 :: a), c. split; [|exact Hc].
      rewrite <- !app_assoc. cbn [app]. rewrite <- app_assoc. reflexivity.
Qed.

(** ** Globs *)

(** X14. A glob list that [normalize_globs] returned is normalized: given
    back to it as a list, it comes out as it is. *)
Theorem X14_normalize_globs_fixed_point (repr_str : pystr -> pystr)
    (apply_to : option pyval) :
  Instructions.normalize_globs repr_str
    (Some (VList (List.map VStr (Instructions.normalize_globs repr_str apply_to))))
  = Instructions.normalize_globs repr_str apply_to.
Proof.
  pose proof (normalize_globs_trimmed repr_str apply_to) as Htrim.
  set (globs := Instructions.normalize_globs repr_str apply_to) in *.
  cbn [Instructions.normalize_globs].
  induction globs as [|g gs IH]; [reflexivity|].
  cbn [List.map List.filter py_str].
  destruct (Htrim g (or_introl eq_refl)) as [Hne Hstrip].
  rewrite Hstrip. destruct g as [|c g]; [congruence|]. cbn [is_empty negb].
  f_equal. apply IH. intros g' Hin. apply Htrim. right. exact Hin.
Qed.

(** ** File names *)

Lemma contains_prefix (p t s : pystr) :
  contains (p ++ t) s = true -> contains p s = true.
Proof.
  rewrite !contains_spec. intros (a & b & ->). exists a, (t ++ b).
  rewrite <- app_assoc. reflexivity.
Qed.

Lemma contains_startswith (p s : pystr) :
  startswith p s = true -> contains p s = true.
Proof. intros H. destruct s; simpl in *; rewrite H; reflexivity. Qed.

Lemma unbordered_spec (p : pystr) (k : nat) :
  unbordered p = true -> (0 < k < length p)%nat ->
  startswith (drop k p) p = false.
Proof.
  unfold unbordered. rewrite forallb_forall. intros H Hk.
  apply negb_true_iff, H, in_seq. lia.
Qed.

Lemma startswith_refl (p : pystr) : startswith p p = true.
Proof. apply startswith_spec. exists []. symmetry. apply app_nil_r. Qed.

(** Replacing an unbordered suffix that occurs nowhere before. *)
Lemma replace_suffix (p r x : pystr) :
  p <> [] -> unbordered p = true -> contains p x = false ->
  replace p r (x ++ p) = x ++ r.
Proof.
  intros Hp Hub. induction x as [|c x IH]; intros Hx.
  - destruct p as [|c p]; [congruence|]. cbn [app].
    rewrite replace_cons, startswith_refl, drop_all, replace_nil
      by discriminate.
    apply app_nil_r.
  - rewrite contains_cons in Hx. apply orb_false_iff in Hx as [Hx1 Hx2].
    cbn [app]. rewrite replace_cons by exact Hp.
    destruct (startswith p (c :: x ++ p)) eqn:Hs.
    + exfalso. change (c :: x ++ p) with ((c :: x) ++ p) in Hs.
      apply startswith_app_inv in Hs as [Hs | (q2 & Hq & Hne & Hs)];
        [congruence|].
      assert (startswith (drop (length (c :: x)) p) p = false) as Hb.
      { apply unbordered_spec; [exact Hub|].
        rewrite Hq. rewrite length_app. simpl.
        destruct q2; [congruence | simpl; lia]. }
      rewrite Hq in Hb at 1. rewrite drop_app_length in Hb. congruence.
    + rewrite IH by exact Hx2. reflexivity.
Qed.

Lemma rfind_char_app (c : char) (a b : pystr) :
  rfind_char c (a ++ b) =
  match rfind_char c b with
  | Some i => Some (length a + i)%nat
  | None => rfind_char c a
  end.
Proof.
  induction a as [|x a IH];
    [cbn [app]; destruct (rfind_char c b); reflexivity|].
  cbn [app rfind_char]. rewrite IH.
  destruct (rfind_char c b); [reflexivity|].
  destruct (rfind_char c a); reflexivity.
Qed.

(** The stem of a name that ends in [.md]. *)
Lemma stem_md (directory base : pystr) :
  base <> [] -> stem (mkPath directory (base ++ u ".md")) = base.
Proof.
  intros Hbase. unfold stem. cbn [name].
  rewrite rfind_char_app. change (rfind_char 46 (u ".md")) with (Some 0%nat).
  rewrite length_app. change (length (u ".md")) with 3%nat.
  replace ((0 <? length base + 0)%nat && (length base + 0 <? length base + 3 - 1)%nat)
    with true.
  - rewrite Nat.add_0_r, take_app_length. reflexivity.
  - symmetry. apply andb_true_iff. split; apply Nat.ltb_lt;
      destruct base; [congruence | simpl; lia | lia | lia].
Qed.

Lemma replace_suffix_absent (p q r x : pystr) :
  p <> [] -> unbordered p = true -> contains q x = false ->
  (exists t, p = q ++ t) ->
  replace p r (x ++ p) = x ++ r.
Proof.
  intros Hp Hub Hq [t Ht]. apply replace_suffix; [exact Hp | exact Hub|].
  destruct (contains p x) eqn:E; [|reflexivity].
  rewrite Ht in E. apply contains_prefix in E. congruence.
Qed.

(** X15. Agent tool, file names.  A source named [x.agent.md], where
    [.agent] does not occur in [x], is written to [x.mdc] in the
    destination directory; its description is the metadata description
    if that is a non-blank string, else the metadata name if that is
    one, else [x]; its warnings are those of the fence extraction
    followed by those of the frontmatter. *)
Theorem X15_agent_file_names {W : Type} `{FileSystem W}
    (literal_eval : pystr -> outcome pyval) (w : W)
    (directory x destination_dir text chatagent_text body : pystr)
    (chatagent_warnings parse_warnings : list pystr)
    (metadata : gmap pystr pyval) :
  let source_path := mkPath directory (x ++ u ".agent.md") in
  let destination_path := mkPath destination_dir (x ++ u ".mdc") in
  contains (u ".agent") x = false ->
  read_text w source_path = Return text ->
  Agents.extract_chatagent_block text = (chatagent_text, chatagent_warnings) ->
  parse_frontmatter literal_eval chatagent_text
  = Return (metadata, body, parse_warnings) ->
  let description :=
    match nonblank_str (metadata !! u "description") with
    | Some d => d
    | None =>
        match nonblank_str (metadata !! u "name") with
        | Some n => n
        | None => x
        end
    end in
  let warnings := chatagent_warnings ++ parse_warnings in
  Agents.convert_file literal_eval w source_path destination_dir =
  match write_text w destination_path
          (Agents.build_rule_content description body) with
  | (w', Raise (OSError msg)) =>
      (w', Return (mkResult source_path (Some destination_path) false
                     warnings (Some msg)))
  | (w', Raise e) => (w', Raise e)
  | (w', Return _) =>
      (w', Return (mkResult source_path (Some destination_path) true
                     warnings None))
  end.
Proof.
  intros source_path destination_path Hx Hread Hextract Hparse description
    warnings.
  unfold Agents.convert_file. rewrite Hread, Hextract, Hparse.
  fold description. unfold destination_path, warnings, description.
  unfold source_path. cbn [name].
  rewrite (replace_suffix_absent (u ".agent.md") (u ".agent") (u ".mdc") x)
    by (discriminate || reflexivity || assumption || (exists (u ".md"); reflexivity)).
  change (x ++ u ".agent.md") with (x ++ u ".agent" ++ u ".md").
  rewrite app_assoc, stem_md by (destruct x; discriminate).
  rewrite (replace_suffix_absent (u ".agent") (u ".agent") [] x)
    by (discriminate || reflexivity || assumption || (exists []; reflexivity)).
  rewrite app_nil_r. reflexivity.
Qed.

Lemma X15_agent_file_names_witness :
  let w := MemoryFS.mkWorld
    [(mkPath (u "agents") (u "code.review.agent.md"),
      Return (u "---" ++ [LF] ++ u "description: '  '" ++ [LF] ++ u "---" ++
              [LF] ++ u "Body"))] [] [] in
  exists w',
    Agents.convert_file LiteralFragment.literal_eval w
      (mkPath (u "agents") (u "code.review.agent.md")) (u "rules")
    = (w', Return (mkResult (mkPath (u "agents") (u "code.review.agent.md"))
                     (Some (mkPath (u "rules") (u "code.review.mdc"))) true
                     [] None)) /\
    MemoryFS.written w'
    = [(mkPath (u "rules") (u "code.review.mdc"),
        Agents.build_rule_content (u "code.review") (u "Body"))].
Proof.
  intros w. eexists.
  rewrite (X15_agent_file_names LiteralFragment.literal_eval w (u "agents")
             (u "code.review") (u "rules")
             (u "---" ++ [LF] ++ u "description: '  '" ++ [LF] ++ u "---" ++
              [LF] ++ u "Body")
             (u "---" ++ [LF] ++ u "description: '  '" ++ [LF] ++ u "---" ++
              [LF] ++ u "Body")
             (u "Body") [] [] (<[u "description" := VStr (u "  ")]> ∅));
    try (vm_compute; reflexivity).
  split; vm_compute; reflexivity.
Defined.



(** X17. Prompt tool, file names.  A source named [x.prompt.md], where
    [.prompt] does not occur in [x], is written to [x.md] in the
    destination directory, and the heading of the command is made from
    [x]; the description is the metadata description when that is a
    string. *)
Theorem X17_prompt_file_names {W : Type} `{FileSystem W}
    (literal_eval : pystr -> outcome pyval) (title : pystr -> pystr)
    (w : W) (directory x destination_dir text prompt_text body : pystr)
    (prompt_warnings parse_warnings : list pystr)
    (metadata : gmap pystr pyval) :
  let source_path := mkPath directory (x ++ u ".prompt.md") in
  let destination_path := mkPath destination_dir (x ++ u ".md") in
  contains (u ".prompt") x = false ->
  read_text w source_path = Return text ->
  Prompts.extract_prompt_block text = (prompt_text, prompt_warnings) ->
  parse_frontmatter literal_eval prompt_text
  = Return (metadata, body, parse_warnings) ->
  let description :=
    match metadata !! u "description" with
    | Some (VStr d) => Some d
    | _ => None
    end in
  let warnings :=
    (prompt_warnings ++ parse_warnings) ++
    match metadata !! u "description" with
    | Some (VStr _) | None => []
    | Some _ => [Prompts.description_warning]
    end in
  Prompts.convert_file literal_eval title w source_path destination_dir =
  match write_text w destination_path
          (Prompts.build_command_content title description body x) with
  | (w', Raise (OSError msg)) =>
      (w', Return (mkResult source_path (Some destination_path) false
                     warnings (Some msg)))
  | (w', Raise e) => (w', Raise e)
  | (w', Return _) =>
      (w', Return (mkResult source_path (Some destination_path) true
                     warnings None))
  end.
Proof.
  intros source_path destination_path Hx Hread Hextract Hparse description
    warnings.
  unfold Prompts.convert_file. rewrite Hread, Hextract, Hparse.
  unfold destination_path, description, warnings, source_path. cbn [name].
  rewrite (replace_suffix_absent (u ".prompt.md") (u ".prompt") (u ".md") x)
    by (discriminate || reflexivity || assumption || (exists (u ".md"); reflexivity)).
  change (x ++ u ".prompt.md") with (x ++ u ".prompt" ++ u ".md").
  rewrite app_assoc, stem_md by (destruct x; discriminate).
  rewrite (replace_suffix_absent (u ".prompt") (u ".prompt") [] x)
    by (discriminate || reflexivity || assumption || (exists []; reflexivity)).
  rewrite app_nil_r.
  destruct (metadata !! u "description") as [[d|items|t]|];
    rewrite ?app_nil_r; reflexivity.
Qed.

Lemma X17_prompt_file_names_witness :
  let w := MemoryFS.mkWorld
    [(mkPath (u "prompts") (u "write_tests.prompt.md"),
      Return (u "```prompt" ++ [LF] ++ u "---" ++ [LF] ++
              u "description: Use VS Code" ++ [LF] ++ u "---" ++ [LF] ++
              u "Body" ++ [LF] ++ u "```"))] [] [] in
  exists w',
    Prompts.convert_file LiteralFragment.literal_eval MemoryFS.title w
      (mkPath (u "prompts") (u "write_tests.prompt.md")) (u "commands")
    = (w', Return (mkResult (mkPath (u "prompts") (u "write_tests.prompt.md"))
                     (Some (mkPath (u "commands") (u "write_tests.md"))) true
                     [] None)) /\
    MemoryFS.written w'
    = [(mkPath (u "commands") (u "write_tests.md"),
        u "# Write Tests" ++ [LF] ++ u "Use Cursor" ++ [LF; LF] ++
        u "Use any text after the command as additional context." ++
        [LF; LF] ++ u "Body" ++ [LF])].
Proof.
  intros w. eexists.
  rewrite (X17_prompt_file_names LiteralFragment.literal_eval MemoryFS.title
             w (u "prompts") (u "write_tests") (u "commands")
             (u "```prompt" ++ [LF] ++ u "---" ++ [LF] ++
              u "description: Use VS Code" ++ [LF] ++ u "---" ++ [LF] ++
              u "Body" ++ [LF] ++ u "```")
             (u "---" ++ [LF] ++ u "description: Use VS Code" ++ [LF] ++
              u "---" ++ [LF] ++ u "Body")
             (u "Body") [] []
             (<[u "description" := VStr (u "Use VS Code")]> ∅));
    try (vm_compute; reflexivity).
  split; vm_compute; reflexivity.
Defined.

(** ** Conversion results *)

(** X18. The result of a conversion, in each of the three tools: it
    names its source; it is a success exactly when it carries no error;
    its destination is in the destination directory; and a result
    without destination is a failure that left the world as it was
    (nothing was written). *)
Theorem X18_result_invariant {W : Type} `{FileSystem W}
    (literal_eval : pystr -> outcome pyval) (repr_str title : pystr -> pystr)
    (w w' : W) (source_path : Path) (destination_dir : pystr)
    (result : ConversionResult) :
  (Agents.convert_file literal_eval w source_path destination_dir
   = (w', Return result) ->
   result_invariant w w' source_path destination_dir result) /\
  (Instructions.convert_file literal_eval repr_str w source_path destination_dir
   = (w', Return result) ->
   result_invariant w w' source_path destination_dir result) /\
  (Prompts.convert_file literal_eval title w source_path destination_dir
   = (w', Return result) ->
   result_invariant w w' source_path destination_dir result).
Proof.
  unfold result_invariant.
  split; [|split];
    unfold Agents.convert_file, Instructions.convert_file, Prompts.convert_file;
    (destruct (read_text w source_path) as [text|[msg| | | | | |]];
     try discriminate;
     [| intros [= <- <-]; cbn; intuition congruence]).
  - destruct (Agents.extract_chatagent_block text) as [t ws].
    destruct (parse_frontmatter literal_eval t) as [[[md b] pw]|e];
      [|discriminate].
    destruct (write_text w _ _) as [w1 [[]|[msg| | | | | |]]];
      try discriminate; intros [= <- <-]; cbn; intuition congruence.
  - destruct (parse_frontmatter literal_eval text) as [[[md b] pw]|e];
      [|discriminate].
    destruct (write_text w _ _) as [w1 [[]|[msg| | | | | |]]];
      try discriminate; intros [= <- <-]; cbn; intuition congruence.
  - destruct (Prompts.extract_prompt_block text) as [t ws].
    destruct (parse_frontmatter literal_eval t) as [[[md b] pw]|e];
      [|discriminate].
    destruct (md !! u "description") as [[d|items|o]|];
      (destruct (write_text w _ _) as [w1 [[]|[msg| | | | | |]]];
       try discriminate; intros [= <- <-]; cbn; intuition congruence).
Qed.

Lemma X18_result_invariant_witness :
  let w := MemoryFS.mkWorld [] [] [] in
  result_invariant w w (mkPath (u "agents") (u "gone.agent.md")) (u "rules")
    (mkResult (mkPath (u "agents") (u "gone.agent.md")) None false []
       (Some (u "[Errno 2] No such file or directory"))).
Proof.
  intros w.
  apply (X18_result_invariant LiteralFragment.literal_eval
           LiteralFragment.repr_str MemoryFS.title w w
           (mkPath (u "agents") (u "gone.agent.md")) (u "rules")).
  vm_compute. reflexivity.
Defined.


Lemma memory_fs_write_raises (w : MemoryFS.world) d content w' e :
  write_text w d content = (w', Raise e) -> exists msg, e = OSError msg.
Proof.
  cbn [write_text MemoryFS.memory_fs].
  destruct (existsb _ _); intros [= _ <-] || intros [= ]; eauto.
Qed.


(** ** The batch, when no conversion raises *)

Section BatchOutput.
Context {W : Type} `{FileSystem W}.
Variable convert_file : W -> Path -> pystr -> W * outcome ConversionResult.
Variable destination_dir : pystr.

Lemma report_lines result t out :
  report result t out
  = (mkTotals (converted t + if success result then 1 else 0)
       (failed t + if success result then 0 else 1)
       (warning_count t + length (warnings result)),
     out ++ result_lines result).
Proof.
  unfold report, result_lines. destruct (success result); cbn [converted failed warning_count].
  - rewrite Nat.add_0_r. destruct (destination result);
      rewrite <- ?app_assoc, ?app_nil_r; reflexivity.
  - rewrite Nat.add_0_r, <- app_assoc. reflexivity.
Qed.

Lemma convert_each_results sources :
  forall w t out results,
    outcomes convert_file destination_dir w sources = List.map Return results ->
    length results = length sources /\
    exists w',
      convert_each convert_file destination_dir w t out sources
      = (w',
         out ++ flat_map result_lines results,
         Return (mkTotals
                   (converted t + length (List.filter success results))
                   (failed t +
                    length (List.filter (fun r => negb (success r)) results))
                   (warning_count t +
                    length (concat (List.map warnings results))))).
Proof.
  induction sources as [|source rest IH]; intros w t out results Hout.
  - destruct results; [|discriminate]. split; [reflexivity|]. exists w.
    cbn. rewrite app_nil_r, !Nat.add_0_r. destruct t; reflexivity.
  - cbn [outcomes convert_each] in *.
    destruct (convert_file w source destination_dir) as [w1 [result|e]].
    + destruct results as [|r results]; [discriminate|].
      injection Hout as <- Hrest.
      rewrite report_lines.
      destruct (IH w1 (mkTotals (converted t + (if success result then 1 else 0))
                         (failed t + (if success result then 0 else 1))
                         (warning_count t + length (warnings result)))
                  (out ++ result_lines result) results Hrest)
        as (Hlen & w' & ->).
      split; [simpl; lia|]. exists w'.
      cbn [flat_map List.filter concat List.map converted failed warning_count].
      rewrite <- app_assoc, length_app.
      destruct (success result); cbn [negb length];
        do 2 f_equal; f_equal; lia.
    + destruct results; discriminate.
Qed.

End BatchOutput.

(** X20. A batch in which no conversion raises, on at least one source:
    every source gets exactly one result, in order; what is printed is,
    for each result in turn, its status line followed by its warnings,
    and then one summary line with the numbers of successes, of failures
    and of warnings; the counts of successes and failures add up to the
    number of sources; the exit code is 1 if a result failed and 0
    otherwise. *)
Theorem X20_batch_output {W : Type} `{FileSystem W}
    (convert_file : W -> Path -> pystr -> W * outcome ConversionResult)
    (kind destination_dir : pystr) (w : W) (out : list pystr)
    (sources : list Path) (results : list ConversionResult) :
  sources <> [] ->
  outcomes convert_file destination_dir w sources = List.map Return results ->
  let failures := length (List.filter (fun r => negb (success r)) results) in
  length results = length sources /\
  (length (List.filter success results) + failures = length sources)%nat /\
  exists w',
    run_batch convert_file kind destination_dir w out sources
    = (w',
       out ++ flat_map result_lines results ++ [summary_line results],
       Return (if (failures =? 0)%nat then 0%Z else 1%Z)).
Proof.
  intros Hne Hout failures.
  destruct (convert_each_results convert_file destination_dir sources w
              (mkTotals 0 0 0) out results Hout) as (Hlen & w' & Hce).
  split; [exact Hlen|]. split.
  - rewrite <- Hlen. unfold failures. clear.
    induction results as [|r rs IH]; [reflexivity|].
    cbn [List.filter]. destruct (success r); cbn [negb length]; lia.
  - exists w'. unfold run_batch. destruct sources as [|s rest]; [congruence|].
    rewrite Hce. cbn [converted failed warning_count Nat.add].
    rewrite <- app_assoc. reflexivity.
Qed.

Lemma X20_batch_output_witness :
  let a := mkPath (u "agents") (u "a.agent.md") in
  let b := mkPath (u "agents") (u "b.agent.md") in
  let w := MemoryFS.mkWorld
    [(a, Return (u "---" ++ [LF] ++ u "oops" ++ [LF] ++ u "---"));
     (b, Raise (OSError (u "[Errno 13] Permission denied")))] [] [] in
  exists w',
    run_batch (Agents.convert_file LiteralFragment.literal_eval)
      (u ".agent.md") (u "rules") w [] [a; b]
    = (w',
       [u "Converted: agents/a.agent.md -> rules/a.mdc";
        u "Warning: agents/a.agent.md: Unrecognized frontmatter line: oops";
        u "Failed: agents/b.agent.md ([Errno 13] Permission denied)";
        u "Summary: converted=1, failed=1, warnings=1"],
       Return 1%Z).
Proof.
  intros a b w.
  destruct (X20_batch_output
              (Agents.convert_file LiteralFragment.literal_eval)
              (u ".agent.md") (u "rules") w [] [a; b]
              [mkResult a (Some (mkPath (u "rules") (u "a.mdc"))) true
                 [u "Unrecognized frontmatter line: oops"] None;
               mkResult b None false []
                 (Some (u "[Errno 13] Permission denied"))])
    as (_ & _ & w' & Hrun).
  - discriminate.
  - vm_compute. reflexivity.
  - exists w'. rewrite Hrun. vm_compute. reflexivity.
Defined.

(** ** The arguments of [main] *)

(** A file argument that is not a file, or whose name does not
    end with the suffix of the tool, ends [main] at once with exit code
    1 and one error line: nothing is converted, and the world is the one
    the creation of the destination directory left. *)
Lemma main_bad_argument {W : Type} `{FileSystem W}
    (convert_file : W -> Path -> pystr -> W * outcome ConversionResult)
    (kind source_dir destination_dir : pystr) (w w1 : W) (r : unit)
    (source_path : Path) :
  mkdir w destination_dir = (w1, Return r) ->
  is_file w1 source_path = false \/ endswith kind (name source_path) = false ->
  Shared.main convert_file kind source_dir destination_dir w (Some source_path)
  = (w1,
     [if is_file w1 source_path
      then u "Error: input must be a " ++ kind ++ u " file."
      else u "Error: file not found: " ++ path_str source_path],
     Return 1%Z).
Proof.
  intros Hmk Hbad. unfold Shared.main. rewrite Hmk.
  destruct (is_file w1 source_path); cbn [negb]; [|reflexivity].
  destruct Hbad as [Hbad | Hbad]; [discriminate|]. rewrite Hbad. reflexivity.
Qed.



(** ** The rule emitters on normalized text *)

Lemma normalize_text_idem (text : pystr) :
  normalize_text (normalize_text text) = normalize_text text.
Proof.
  destruct (normalize_text_clean text) as (H1 & H2 & H3 & H4).
  apply normalize_text_fixed; assumption.
Qed.

(** X22. The rule emitters see only the normalized description and
    body: a description and a body that were normalized beforehand give
    the same rule text, in the agent tool and in the instruction tool. *)
Theorem X22_rule_of_normalized_text (description body : pystr)
    (globs : list pystr) (always_apply : bool) :
  Agents.build_rule_content (normalize_text description) (normalize_text body)
  = Agents.build_rule_content description body /\
  Instructions.build_rule_content (normalize_text description) globs
    always_apply (normalize_text body)
  = Instructions.build_rule_content description globs always_apply body.
Proof.
  unfold Agents.build_rule_content, Instructions.build_rule_content.
  rewrite !normalize_text_idem. split; reflexivity.
Qed.

(** ** Where metadata values come from *)

Lemma parse_yaml_value_origin literal_eval raw v :
  parse_yaml_value literal_eval raw = Return v ->
  is_str v = true \/
  (bracketed (strip raw) = true /\ literal_eval (strip raw) = Return v).
Proof.
  unfold parse_yaml_value. fold (bracketed (strip raw)).
  destruct (is_empty (strip raw)); [intros [= <-]; left; reflexivity|].
  destruct (bracketed (strip raw)).
  - destruct (literal_eval (strip raw)) as [literal|e].
    + intros [= <-]. right. split; reflexivity.
    + destruct (is_SyntaxError_or_ValueError e); [|discriminate].
      intros [= <-]. left. reflexivity.
  - destruct (_ || _); intros [= <-]; left; reflexivity.
Qed.

Lemma parse_lines_values literal_eval (P : pyval -> Prop) lines :
  (forall raw v, parse_yaml_value literal_eval raw = Return v -> P v) ->
  forall metadata warnings metadata' warnings',
    (forall key v, metadata !! key = Some v -> P v) ->
    parse_lines literal_eval lines metadata warnings
    = Return (metadata', warnings') ->
    forall key v, metadata' !! key = Some v -> P v.
Proof.
  intros HP. induction lines as [|line rest IH];
    intros metadata warnings metadata' warnings' Hmd.
  - simpl. intros [= <- _]. exact Hmd.
  - cbn [parse_lines]. destruct (_ || _); [apply IH, Hmd|].
    destruct (negb _); [apply IH, Hmd|].
    destruct (split_once (u ":") line) as [[key raw]|]; [|discriminate].
    destruct (parse_yaml_value literal_eval raw) as [v|e] eqn:E; [|discriminate].
    apply IH. intros k v' Hk.
    destruct (decide (k = strip key)) as [->|Hne].
    + rewrite lookup_insert_eq in Hk. injection Hk as <-. eapply HP, E.
    + rewrite lookup_insert_ne in Hk by congruence. eapply Hmd, Hk.
Qed.

(** X23. Every value of the metadata the parser returns is a string,
    unless it is what literal evaluation returned for a bracketed text:
    lists, and any other object, come from [literal_eval] alone. *)
Theorem X23_metadata_values (literal_eval : pystr -> outcome pyval)
    (text body : pystr) (metadata : gmap pystr pyval) (warnings : list pystr)
    (key : pystr) (v : pyval) :
  parse_frontmatter literal_eval text = Return (metadata, body, warnings) ->
  metadata !! key = Some v ->
  is_str v = true \/
  exists bracketed_text,
    bracketed bracketed_text = true /\
    literal_eval bracketed_text = Return v.
Proof.
  unfold parse_frontmatter. destruct (splitlines text) as [|first rest].
  { intros [= <- _ _] Hk. rewrite lookup_empty in Hk. discriminate. }
  destruct (negb _).
  { intros [= <- _ _] Hk. rewrite lookup_empty in Hk. discriminate. }
  destruct (find_from _ _ _) as [end_index|].
  - destruct (parse_lines _ _ _ _) as [[md ws]|e] eqn:E; [|discriminate].
    simpl. intros [= <- _ _]. revert key v.
    eapply parse_lines_values; [| |exact E].
    + intros raw v Hv. apply parse_yaml_value_origin in Hv as [Hs|[Hb Hl]];
        [left; exact Hs | right; eauto].
    + intros k v' Hk. rewrite lookup_empty in Hk. discriminate.
  - intros [= <- _ _] Hk. rewrite lookup_empty in Hk. discriminate.
Qed.

Lemma X23_metadata_values_witness :
  is_str (VList [VStr (u "a")]) = true \/
  exists bracketed_text,
    bracketed bracketed_text = true /\
    LiteralFragment.literal_eval bracketed_text = Return (VList [VStr (u "a")]).
Proof.
  apply (X23_metadata_values LiteralFragment.literal_eval
           (u "---" ++ [LF] ++ u "tools: ['a']" ++ [LF] ++ u "---")
           [] (<[u "tools" := VList [VStr (u "a")]]> ∅) [] (u "tools")).
  - vm_compute. reflexivity.
  - apply lookup_insert_eq.
Defined.
